(** * Verification model of gonnotation's type-graph engine

    A shallow embedding of the Go sources of gonnotation:
    - the annotation parser ([annotations] package),
    - the const-block enum reconstruction ([types.ProcessResult.AddConstBlock]),
    - the usage tracker and visibility rules ([types] package),
    - the type registry ([GetOrCreateTypeInfo], [AddTypeSpec] and the
      deferred parsers of [TypeInfo]),
    - the referenced-mode inclusion of the orchestrator ([parser] package).

    Go strings are modelled as Rocq [string]s, i.e. byte sequences.  The
    scanners below iterate byte by byte; for ASCII input (all the inputs
    used below) a byte is a rune, as in Go's [range] over a string. *)

From Stdlib Require Import Ascii String ZArith List Bool Lia.
From stdpp Require Import base gmap strings list options.

Local Open Scope string_scope.
Set Warnings "-register-all".

(* ------------------------------------------------------------------ *)
(** ** Go's [strings] package, the parts the code uses *)

Module GoStrings.

Definition isSpace (c : ascii) : bool :=
  let n := nat_of_ascii c in (n =? 32)%nat || ((9 <=? n)%nat && (n <=? 13)%nat).

Fixpoint trimLeftBy (p : ascii -> bool) (s : string) : string :=
  match s with
  | EmptyString => EmptyString
  | String c r => if p c then trimLeftBy p r else s
  end.

Fixpoint dropWhileL (p : ascii -> bool) (l : list ascii) : list ascii :=
  match l with
  | [] => []
  | c :: r => if p c then dropWhileL p r else l
  end.

Definition trimRightBy (p : ascii -> bool) (s : string) : string :=
  string_of_list_ascii (rev (dropWhileL p (rev (list_ascii_of_string s)))).

(** [strings.TrimSpace] (ASCII white space). *)
Definition TrimSpace (s : string) : string :=
  trimRightBy isSpace (trimLeftBy isSpace s).

Definition inCutset (cutset : string) (c : ascii) : bool :=
  existsb (Ascii.eqb c) (list_ascii_of_string cutset).

(** [strings.Trim(s, cutset)]. *)
Definition Trim (s cutset : string) : string :=
  trimRightBy (inCutset cutset) (trimLeftBy (inCutset cutset) s).

Definition HasPrefix (s p : string) : bool := String.prefix p s.

Definition TrimPrefix (s p : string) : string :=
  if HasPrefix s p then substring (String.length p) (String.length s - String.length p) s
  else s.

Definition HasSuffix (s suf : string) : bool :=
  (String.length suf <=? String.length s)%nat &&
  String.eqb (substring (String.length s - String.length suf) (String.length suf) s) suf.

Definition TrimSuffix (s suf : string) : string :=
  if HasSuffix s suf then substring 0 (String.length s - String.length suf) s else s.

(** [strings.Contains]. *)
Definition Contains (s sub : string) : bool :=
  match String.index 0 sub s with Some _ => true | None => false end.

(** [strings.Index(s, c)] for a one-byte needle; [None] stands for -1. *)
Fixpoint IndexChar (s : string) (c : ascii) : option nat :=
  match s with
  | EmptyString => None
  | String d r => if Ascii.eqb d c then Some 0 else option_map S (IndexChar r c)
  end.

(** [strings.LastIndex(s, c)] for a one-byte needle. *)
Fixpoint LastIndexChar (s : string) (c : ascii) : option nat :=
  match s with
  | EmptyString => None
  | String d r =>
      match LastIndexChar r c with
      | Some i => Some (S i)
      | None => if Ascii.eqb d c then Some 0 else None
      end
  end.

(** [strings.Split(s, sep)] for a one-byte separator. *)
Fixpoint SplitChar (s : string) (c : ascii) : list string :=
  match s with
  | EmptyString => [EmptyString]
  | String d r =>
      match SplitChar r c with
      | [] => [String d EmptyString]
      | x :: xs => if Ascii.eqb d c then EmptyString :: x :: xs else String d x :: xs
      end
  end.

(** Go's slice expression [s[lo:hi]]: it panics (here [None]) unless
    [0 <= lo <= hi <= len(s)]. *)
Definition slice (s : string) (lo hi : nat) : option string :=
  if (lo <=? hi)%nat && (hi <=? String.length s)%nat
  then Some (substring lo (hi - lo) s) else None.

Definition sliceFrom (s : string) (lo : nat) : option string :=
  slice s lo (String.length s).

(** [strings.Builder.WriteRune]. *)
Definition writeRune (cur : string) (ch : ascii) : string :=
  cur ++ String ch EmptyString.

Definition dq : ascii := "034"%char.
Definition sq : ascii := "039"%char.
Definition rune0 : ascii := "000"%char.

Definition isQuote (ch : ascii) : bool := Ascii.eqb ch dq || Ascii.eqb ch sq.

(** The one-byte strings of the two quote characters. *)
Definition DQ : string := String dq EmptyString.
Definition SQ : string := String sq EmptyString.
Definition quoteCutset : string := DQ ++ SQ.

End GoStrings.

Import GoStrings.

(* ------------------------------------------------------------------ *)
(** ** The annotation parser ([annotations] package) *)

Module Annotations.

(** [Annotation{Name, Params, RawText}]; [Params] is a Go map. *)
Record Annotation := mkAnnotation {
  Name : string;
  Params : gmap string string;
  RawText : string
}.

(** Reading a Go [map[string]string]: a missing key reads as the empty string. *)
Definition mget (m : gmap string string) (k : string) : string :=
  default EmptyString (m !! k).

(** The scanner state of [parseParamsParentheses]: [parts], [current],
    [inQuotes], [quoteChar], [bracketDepth]. *)
Record splitState := mkSplit {
  sp_parts : list string;
  sp_cur : string;
  sp_inq : bool;
  sp_qc : ascii;
  sp_depth : Z
}.

(** One iteration of the first loop of [parseParamsParentheses]. *)
Definition ppStep (st : splitState) (ch : ascii) : splitState :=
  let '(mkSplit parts cur inq qc d) := st in
  if isQuote ch then
    if negb inq then mkSplit parts (writeRune cur ch) true ch d
    else if Ascii.eqb ch qc then mkSplit parts (writeRune cur ch) false qc d
    else mkSplit parts (writeRune cur ch) inq qc d
  else if Ascii.eqb ch "["%char && negb inq then mkSplit parts (writeRune cur ch) inq qc (d + 1)%Z
  else if Ascii.eqb ch "]"%char && negb inq then mkSplit parts (writeRune cur ch) inq qc (d - 1)%Z
  else if Ascii.eqb ch ","%char && negb inq && Z.eqb d 0 then mkSplit (app parts [cur]) EmptyString inq qc d
  else mkSplit parts (writeRune cur ch) inq qc d.

Definition splitInit : splitState := mkSplit [] EmptyString false rune0 0%Z.

(** The list [parts] built by the first loop of [parseParamsParentheses]. *)
Definition splitParenParts (s : string) : list string :=
  let st := fold_left ppStep (list_ascii_of_string s) splitInit in
  if (0 <? String.length (sp_cur st))%nat then app (sp_parts st) [sp_cur st] else sp_parts st.

(** [isInQuotes(s, idx)]. *)
Fixpoint isInQuotesAux (cs : list ascii) (i idx : nat) (inq : bool) (qc : ascii) : bool :=
  match cs with
  | [] => inq
  | ch :: r =>
      if (idx <=? i)%nat then inq
      else if isQuote ch then
        if negb inq then isInQuotesAux r (S i) idx true ch
        else if Ascii.eqb ch qc then isInQuotesAux r (S i) idx false qc
        else isInQuotesAux r (S i) idx inq qc
      else isInQuotesAux r (S i) idx inq qc
  end.

Definition isInQuotes (s : string) (idx : nat) : bool :=
  isInQuotesAux (list_ascii_of_string s) 0 idx false rune0.

Definition isSep (ch : ascii) : bool := Ascii.eqb ch ":"%char || Ascii.eqb ch "="%char.

(** The separator search loop: the first index of [:] or [=] that is not
    inside quotes. *)
Fixpoint findSepAux (part : string) (cs : list ascii) (i : nat) : option nat :=
  match cs with
  | [] => None
  | ch :: r => if isSep ch && negb (isInQuotes part i) then Some i else findSepAux part r (S i)
  end.

Definition findSep (part : string) : option nat :=
  findSepAux part (list_ascii_of_string part) 0.

(** [isBooleanFlag]. *)
Definition flagChar (ch : ascii) : bool :=
  let n := nat_of_ascii ch in
  ((97 <=? n) && (n <=? 122))%nat || ((65 <=? n) && (n <=? 90))%nat ||
  ((48 <=? n) && (n <=? 57))%nat || Ascii.eqb ch "_"%char || Ascii.eqb ch "-"%char.

Definition isBooleanFlag (s0 : string) : bool :=
  let s := TrimSpace s0 in
  if String.eqb s EmptyString then false else forallb flagChar (list_ascii_of_string s).

(** The body of the second loop of [parseParamsParentheses]; the
    accumulator is [(params, positionalIdx)]. *)
Definition ppPart (acc : gmap string string * nat) (part0 : string)
  : option (gmap string string * nat) :=
  let '(params, pidx) := acc in
  let part := TrimSpace part0 in
  match findSep part with
  | None =>
      let wasQuoted := (HasPrefix part DQ && HasSuffix part DQ) ||
                       (HasPrefix part SQ && HasSuffix part SQ) in
      let value := Trim part quoteCutset in
      if negb wasQuoted && isBooleanFlag value then Some (<[value := "true"]> params, pidx)
      else if (pidx =? 0)%nat then Some (<[EmptyString := value]> params, S pidx)
      else Some (<[EmptyString := mget params EmptyString ++ "," ++ value]> params, S pidx)
  | Some i =>
      k ← slice part 0 i;
      v ← sliceFrom part (S i);
      Some (<[TrimSpace k := Trim (TrimSpace v) quoteCutset]> params, pidx)
  end.

Fixpoint foldPartsM {A} (f : A -> string -> option A) (acc : A) (ps : list string) : option A :=
  match ps with
  | [] => Some acc
  | p :: r => acc' ← f acc p; foldPartsM f acc' r
  end.

(** [parseParamsParentheses]. *)
Definition parseParamsParentheses (s : string) : option (gmap string string) :=
  r ← foldPartsM ppPart (∅, 0%nat) (splitParenParts s);
  Some (fst r).

(** [splitAnnotationParts]: the scanner state is [(parts, current,
    inQuotes, quoteChar)]. *)
Definition sapStep (st : list string * string * bool * ascii) (ch : ascii)
  : list string * string * bool * ascii :=
  let '(parts, cur, inq, qc) := st in
  if isQuote ch then
    if negb inq then (parts, writeRune cur ch, true, ch)
    else if Ascii.eqb ch qc then (parts, writeRune cur ch, false, qc)
    else (parts, writeRune cur ch, inq, qc)
  else if Ascii.eqb ch " "%char && negb inq then
    if (0 <? String.length cur)%nat then (app parts [cur], EmptyString, inq, qc) else (parts, cur, inq, qc)
  else (parts, writeRune cur ch, inq, qc).

Definition splitAnnotationParts (line : string) : list string :=
  let '(parts, cur, _, _) := fold_left sapStep (list_ascii_of_string line) ([], EmptyString, false, rune0) in
  if (0 <? String.length cur)%nat then app parts [cur] else parts.

(** The body of the loop of [parseParamsSpaceSeparated]. *)
Definition pssPart (params : gmap string string) (part0 : string) : option (gmap string string) :=
  let part := TrimSpace part0 in
  if String.eqb part EmptyString then Some params
  else match findSep part with
       | None => Some (<[part := "true"]> params)
       | Some i =>
           k ← slice part 0 i;
           v ← sliceFrom part (S i);
           Some (<[TrimSpace k := Trim (TrimSpace v) quoteCutset]> params)
       end.

Definition parseParamsSpaceSeparated (parts : list string) : option (gmap string string) :=
  foldPartsM pssPart ∅ parts.

(** [parseAnnotation]; [None] is a Go run-time panic. *)
Definition parseAnnotation (line0 : string) : option Annotation :=
  let line := TrimPrefix line0 "@" in
  match IndexChar line "("%char with
  | Some parenIdx =>
      nm ← slice line 0 parenIdx;
      ps ← sliceFrom line (S parenIdx);
      ps' ← (match LastIndexChar ps ")"%char with
             | Some endIdx => slice ps 0 endIdx
             | None => Some ps
             end);
      params ← parseParamsParentheses ps';
      Some (mkAnnotation (TrimSpace nm) params line0)
  | None =>
      match splitAnnotationParts line with
      | [] => Some (mkAnnotation EmptyString ∅ line0)
      | p0 :: rest =>
          params ← (if (1 <? length (p0 :: rest))%nat then parseParamsSpaceSeparated rest
                    else Some ∅);
          Some (mkAnnotation (TrimSpace p0) params line0)
      end
  end.

(** The per-line body of [ParseAnnotations]. *)
Definition annotationsOfLine (line0 : string) : option (list Annotation) :=
  let line := TrimSpace (TrimPrefix (TrimSpace line0) "*") in
  if HasPrefix line "@" then
    ann ← parseAnnotation line;
    Some (if String.eqb (Name ann) EmptyString then [] else [ann])
  else Some [].

Fixpoint concatMapM {A B} (f : A -> option (list B)) (l : list A) : option (list B) :=
  match l with
  | [] => Some []
  | x :: r => ys ← f x; zs ← concatMapM f r; Some (app ys zs)
  end.

(** The body for one comment [c] of a group. *)
Definition annotationsOfComment (ctext : string) : option (list Annotation) :=
  let text := TrimSpace (TrimSuffix (TrimPrefix (TrimPrefix (TrimSpace ctext) "//") "/*") "*/") in
  concatMapM annotationsOfLine (SplitChar text "010"%char).

(** [ParseAnnotations(comments []*ast.CommentGroup)]: a group is a list of
    comment texts, [None] is a nil [*ast.CommentGroup]; reading [cg.List]
    through a nil group panics. *)
Definition ParseAnnotations (groups : list (option (list string))) : option (list Annotation) :=
  concatMapM (fun g => match g with
                       | None => None
                       | Some cs => concatMapM annotationsOfComment cs
                       end) groups.

End Annotations.

(* ------------------------------------------------------------------ *)
(** ** The [types] package: data model *)

Module Types.

Import Annotations.

(** *** The part of [go/ast] the package reads *)

Inductive LitKind := INT | FLOAT | IMAG | CHAR | STRING.

(** A [*ast.CommentGroup]: the texts of its comments, [None] when nil. *)
Definition CommentGroup := option (list string).

(** Expressions.  A selector is [pkg.Sel] with an identifier on the left,
    the only form [go/parser] produces in type position.  A field carries
    its names, its type and its [Doc] and [Comment] groups.  [FuncType]
    lists its parameters and results ([Results == nil] is the empty
    list: the code iterates over it only). *)
Inductive Expr :=
| Ident (name : string)
| BasicLit (kind : LitKind) (value : string)
| BinaryExpr (x : Expr) (op : string) (y : Expr)
| ParenExpr (x : Expr)
| UnaryExpr (op : string) (x : Expr)
| StarExpr (x : Expr)
| SelectorExpr (x : string) (sel : string)
| ArrayType (len : option Expr) (elt : Expr)
| MapType (key value : Expr)
| StructType (fields : list Field)
| InterfaceType (methods : list Field)
| FuncType (params results : list Field)
| IndexExpr (x index : Expr)
| IndexListExpr (x : Expr) (indices : list Expr)
| OtherExpr
with Field :=
| mkField (names : list string) (ftype : Expr) (doc comment : CommentGroup).

Definition fieldNames (f : Field) : list string := let '(mkField n _ _ _) := f in n.
Definition fieldType (f : Field) : Expr := let '(mkField _ t _ _) := f in t.
Definition fieldDoc (f : Field) : CommentGroup := let '(mkField _ _ d _) := f in d.
Definition fieldComment (f : Field) : CommentGroup := let '(mkField _ _ _ c) := f in c.

Record TypeSpec := mkTypeSpec {
  tsName : string;
  tsDoc : CommentGroup;
  tsAssign : bool;                     (* [Assign.IsValid()]: an alias *)
  tsTypeParams : option (list Field);  (* [TypeParams], nil when absent *)
  tsType : Expr
}.

Record ValueSpec := mkValueSpec {
  vsDoc : CommentGroup;
  vsNames : list string;
  vsType : option Expr;
  vsValues : list Expr;
  vsComment : CommentGroup
}.

Inductive Spec :=
| STypeSpec (s : TypeSpec)
| SValueSpec (s : ValueSpec)
| SImportSpec.

Inductive Token := CONST | TYPE | VAR | IMPORT.

Record GenDecl := mkGenDecl { gdDoc : CommentGroup; gdTok : Token; gdSpecs : list Spec }.

(** A [*ast.FuncDecl]; [fdRecv] is the type of the first receiver field,
    [None] when [Recv] is nil or empty. *)
Record FuncDecl := mkFuncDecl {
  fdDoc : CommentGroup;
  fdRecv : option Expr;
  fdName : string;
  fdParams : list Field;
  fdResults : list Field
}.

Inductive Decl := DGen (d : GenDecl) | DFunc (d : FuncDecl).

(** A file: its imports [(alias, path)] and its declarations. *)
Record File := mkFile { fImports : list (option string * string); fDecls : list Decl }.

(** A [*packages.Package]: [PkgPath], [Name] and [Imports] (the map from
    import path to imported package name, listed in one fixed order). *)
Record Package := mkPackage { PkgPath : string; PkgName : string; PkgImports : list (string * string) }.

(** *** The data model of [type_info.go], [usage_info.go], ... *)

Inductive TypeKind := TypeKindStruct | TypeKindInterface | TypeKindFunction | TypeKindEnum
| TypeKindBasic | TypeKindAlias | TypeKindArray | TypeKindSlice | TypeKindMap.

(** [Visibility] is a Go string type: the three declared constants, and
    its zero value, the empty string ([VisibilityZero]). *)
Inductive Visibility := VisibilityPublic | VisibilityProtected | VisibilityPrivate | VisibilityZero.

Inductive ReferenceKind := ReferenceKindField | ReferenceKindEmbedded | ReferenceKindParameter
| ReferenceKindReturn.

Record ReferenceInfo := mkRef { RefType : string; RefName : string; RefKind : ReferenceKind }.

Record UsageInfo := mkUsage {
  IsOnlyEmbedded : bool;
  EmbeddedIn : list ReferenceInfo;
  ReferencedIn : list ReferenceInfo
}.

(** Pointers to [TypeInfo] values are addresses in a heap. *)
Definition ptr := nat.

Record TypeParam := mkTypeParam { tpName : string; tpConstraint : option ptr; tpTypeRef : string }.

(** [TypedElement] (its [Type] expression and [Comment] text omitted). *)
Record TypedElement := mkTE {
  teName : string;
  teIsPointer : bool;
  teAnnotations : list Annotation;
  teVisibility : Visibility;
  teTypeRef : string;
  teTypeInfo : option ptr
}.

(** [FieldInfo]: the embedded [TypedElement], [IsEmbedded] and its own
    [Visibility] (the tag fields omitted). *)
Record FieldInfo := mkFieldInfo { fiTE : TypedElement; fiIsEmbedded : bool; fiVisibility : Visibility }.

Record FunctionInfo := mkFunctionInfo {
  fnName : string;
  fnAnnotations : list Annotation;
  fnParms : list TypedElement;
  fnReturns : list TypedElement;
  fnVisibility : Visibility
}.

(** The [any] value of an [EnumValue]. *)
Inductive ConstValue := CNil | CStr (s : string) | CInt (z : Z).

Record EnumValue := mkEnumValue {
  evName : string;
  evVisibility : Visibility;
  evValue : ConstValue;
  evTypeInfo : option ptr;
  evTypeRef : string;
  evAnnotations : list Annotation
}.

(** [TypeInfo] (the comment text, [GenDecl], [Expr], [PkgName]/[PkgPath],
    include type, depth and the JSON reference strings other than
    [BaseGenericTypeRef] and [TypeArgumentRefs] omitted). *)
Record TypeInfo := mkTypeInfo {
  Kind : TypeKind;
  TIVisibility : Visibility;
  CannonicalName : string;
  TIName : string;
  AstFile : option File;
  TITypeSpec : option TypeSpec;
  TIPackage : Package;
  TIAnnotations : list Annotation;
  IsGeneric : bool;
  IsAlias : bool;
  AliasTarget : option ptr;
  IsGenericInstantiation : bool;
  BaseGenericType : option ptr;
  BaseGenericTypeRef : string;
  TypeArguments : list (option ptr);
  TypeArgumentRefs : list string;
  TypeParams : list TypeParam;
  ElementType : option ptr;
  KeyType : option ptr;
  FunctionSig : option FunctionInfo;
  Fields : list FieldInfo;
  Methods : list FunctionInfo;
  EnumValues : list EnumValue;
  TIUsageInfo : UsageInfo;
  structType : option (option (list Field));  (* [Some None]: the placeholder [&ast.StructType{}] *)
  interfaceType : option (list Field);
  typeParamList : option (list Field)
}.

(** Field updates of a [TypeInfo] value ([ti.F = v]). *)
Definition set_Kind (v : TypeKind) (t : TypeInfo) : TypeInfo :=
  {| Kind := v; TIVisibility := TIVisibility t; CannonicalName := CannonicalName t; TIName := TIName t; AstFile := AstFile t; TITypeSpec := TITypeSpec t; TIPackage := TIPackage t; TIAnnotations := TIAnnotations t; IsGeneric := IsGeneric t; IsAlias := IsAlias t; AliasTarget := AliasTarget t; IsGenericInstantiation := IsGenericInstantiation t; BaseGenericType := BaseGenericType t; BaseGenericTypeRef := BaseGenericTypeRef t; TypeArguments := TypeArguments t; TypeArgumentRefs := TypeArgumentRefs t; TypeParams := TypeParams t; ElementType := ElementType t; KeyType := KeyType t; FunctionSig := FunctionSig t; Fields := Fields t; Methods := Methods t; EnumValues := EnumValues t; TIUsageInfo := TIUsageInfo t; structType := structType t; interfaceType := interfaceType t; typeParamList := typeParamList t |}.
Definition set_TIVisibility (v : Visibility) (t : TypeInfo) : TypeInfo :=
  {| Kind := Kind t; TIVisibility := v; CannonicalName := CannonicalName t; TIName := TIName t; AstFile := AstFile t; TITypeSpec := TITypeSpec t; TIPackage := TIPackage t; TIAnnotations := TIAnnotations t; IsGeneric := IsGeneric t; IsAlias := IsAlias t; AliasTarget := AliasTarget t; IsGenericInstantiation := IsGenericInstantiation t; BaseGenericType := BaseGenericType t; BaseGenericTypeRef := BaseGenericTypeRef t; TypeArguments := TypeArguments t; TypeArgumentRefs := TypeArgumentRefs t; TypeParams := TypeParams t; ElementType := ElementType t; KeyType := KeyType t; FunctionSig := FunctionSig t; Fields := Fields t; Methods := Methods t; EnumValues := EnumValues t; TIUsageInfo := TIUsageInfo t; structType := structType t; interfaceType := interfaceType t; typeParamList := typeParamList t |}.
Definition set_CannonicalName (v : string) (t : TypeInfo) : TypeInfo :=
  {| Kind := Kind t; TIVisibility := TIVisibility t; CannonicalName := v; TIName := TIName t; AstFile := AstFile t; TITypeSpec := TITypeSpec t; TIPackage := TIPackage t; TIAnnotations := TIAnnotations t; IsGeneric := IsGeneric t; IsAlias := IsAlias t; AliasTarget := AliasTarget t; IsGenericInstantiation := IsGenericInstantiation t; BaseGenericType := BaseGenericType t; BaseGenericTypeRef := BaseGenericTypeRef t; TypeArguments := TypeArguments t; TypeArgumentRefs := TypeArgumentRefs t; TypeParams := TypeParams t; ElementType := ElementType t; KeyType := KeyType t; FunctionSig := FunctionSig t; Fields := Fields t; Methods := Methods t; EnumValues := EnumValues t; TIUsageInfo := TIUsageInfo t; structType := structType t; interfaceType := interfaceType t; typeParamList := typeParamList t |}.
Definition set_TIName (v : string) (t : TypeInfo) : TypeInfo :=
  {| Kind := Kind t; TIVisibility := TIVisibility t; CannonicalName := CannonicalName t; TIName := v; AstFile := AstFile t; TITypeSpec := TITypeSpec t; TIPackage := TIPackage t; TIAnnotations := TIAnnotations t; IsGeneric := IsGeneric t; IsAlias := IsAlias t; AliasTarget := AliasTarget t; IsGenericInstantiation := IsGenericInstantiation t; BaseGenericType := BaseGenericType t; BaseGenericTypeRef := BaseGenericTypeRef t; TypeArguments := TypeArguments t; TypeArgumentRefs := TypeArgumentRefs t; TypeParams := TypeParams t; ElementType := ElementType t; KeyType := KeyType t; FunctionSig := FunctionSig t; Fields := Fields t; Methods := Methods t; EnumValues := EnumValues t; TIUsageInfo := TIUsageInfo t; structType := structType t; interfaceType := interfaceType t; typeParamList := typeParamList t |}.
Definition set_AstFile (v : option File) (t : TypeInfo) : TypeInfo :=
  {| Kind := Kind t; TIVisibility := TIVisibility t; CannonicalName := CannonicalName t; TIName := TIName t; AstFile := v; TITypeSpec := TITypeSpec t; TIPackage := TIPackage t; TIAnnotations := TIAnnotations t; IsGeneric := IsGeneric t; IsAlias := IsAlias t; AliasTarget := AliasTarget t; IsGenericInstantiation := IsGenericInstantiation t; BaseGenericType := BaseGenericType t; BaseGenericTypeRef := BaseGenericTypeRef t; TypeArguments := TypeArguments t; TypeArgumentRefs := TypeArgumentRefs t; TypeParams := TypeParams t; ElementType := ElementType t; KeyType := KeyType t; FunctionSig := FunctionSig t; Fields := Fields t; Methods := Methods t; EnumValues := EnumValues t; TIUsageInfo := TIUsageInfo t; structType := structType t; interfaceType := interfaceType t; typeParamList := typeParamList t |}.
Definition set_TITypeSpec (v : option TypeSpec) (t : TypeInfo) : TypeInfo :=
  {| Kind := Kind t; TIVisibility := TIVisibility t; CannonicalName := CannonicalName t; TIName := TIName t; AstFile := AstFile t; TITypeSpec := v; TIPackage := TIPackage t; TIAnnotations := TIAnnotations t; IsGeneric := IsGeneric t; IsAlias := IsAlias t; AliasTarget := AliasTarget t; IsGenericInstantiation := IsGenericInstantiation t; BaseGenericType := BaseGenericType t; BaseGenericTypeRef := BaseGenericTypeRef t; TypeArguments := TypeArguments t; TypeArgumentRefs := TypeArgumentRefs t; TypeParams := TypeParams t; ElementType := ElementType t; KeyType := KeyType t; FunctionSig := FunctionSig t; Fields := Fields t; Methods := Methods t; EnumValues := EnumValues t; TIUsageInfo := TIUsageInfo t; structType := structType t; interfaceType := interfaceType t; typeParamList := typeParamList t |}.
Definition set_TIPackage (v : Package) (t : TypeInfo) : TypeInfo :=
  {| Kind := Kind t; TIVisibility := TIVisibility t; CannonicalName := CannonicalName t; TIName := TIName t; AstFile := AstFile t; TITypeSpec := TITypeSpec t; TIPackage := v; TIAnnotations := TIAnnotations t; IsGeneric := IsGeneric t; IsAlias := IsAlias t; AliasTarget := AliasTarget t; IsGenericInstantiation := IsGenericInstantiation t; BaseGenericType := BaseGenericType t; BaseGenericTypeRef := BaseGenericTypeRef t; TypeArguments := TypeArguments t; TypeArgumentRefs := TypeArgumentRefs t; TypeParams := TypeParams t; ElementType := ElementType t; KeyType := KeyType t; FunctionSig := FunctionSig t; Fields := Fields t; Methods := Methods t; EnumValues := EnumValues t; TIUsageInfo := TIUsageInfo t; structType := structType t; interfaceType := interfaceType t; typeParamList := typeParamList t |}.
Definition set_TIAnnotations (v : list Annotation) (t : TypeInfo) : TypeInfo :=
  {| Kind := Kind t; TIVisibility := TIVisibility t; CannonicalName := CannonicalName t; TIName := TIName t; AstFile := AstFile t; TITypeSpec := TITypeSpec t; TIPackage := TIPackage t; TIAnnotations := v; IsGeneric := IsGeneric t; IsAlias := IsAlias t; AliasTarget := AliasTarget t; IsGenericInstantiation := IsGenericInstantiation t; BaseGenericType := BaseGenericType t; BaseGenericTypeRef := BaseGenericTypeRef t; TypeArguments := TypeArguments t; TypeArgumentRefs := TypeArgumentRefs t; TypeParams := TypeParams t; ElementType := ElementType t; KeyType := KeyType t; FunctionSig := FunctionSig t; Fields := Fields t; Methods := Methods t; EnumValues := EnumValues t; TIUsageInfo := TIUsageInfo t; structType := structType t; interfaceType := interfaceType t; typeParamList := typeParamList t |}.
Definition set_IsGeneric (v : bool) (t : TypeInfo) : TypeInfo :=
  {| Kind := Kind t; TIVisibility := TIVisibility t; CannonicalName := CannonicalName t; TIName := TIName t; AstFile := AstFile t; TITypeSpec := TITypeSpec t; TIPackage := TIPackage t; TIAnnotations := TIAnnotations t; IsGeneric := v; IsAlias := IsAlias t; AliasTarget := AliasTarget t; IsGenericInstantiation := IsGenericInstantiation t; BaseGenericType := BaseGenericType t; BaseGenericTypeRef := BaseGenericTypeRef t; TypeArguments := TypeArguments t; TypeArgumentRefs := TypeArgumentRefs t; TypeParams := TypeParams t; ElementType := ElementType t; KeyType := KeyType t; FunctionSig := FunctionSig t; Fields := Fields t; Methods := Methods t; EnumValues := EnumValues t; TIUsageInfo := TIUsageInfo t; structType := structType t; interfaceType := interfaceType t; typeParamList := typeParamList t |}.
Definition set_IsAlias (v : bool) (t : TypeInfo) : TypeInfo :=
  {| Kind := Kind t; TIVisibility := TIVisibility t; CannonicalName := CannonicalName t; TIName := TIName t; AstFile := AstFile t; TITypeSpec := TITypeSpec t; TIPackage := TIPackage t; TIAnnotations := TIAnnotations t; IsGeneric := IsGeneric t; IsAlias := v; AliasTarget := AliasTarget t; IsGenericInstantiation := IsGenericInstantiation t; BaseGenericType := BaseGenericType t; BaseGenericTypeRef := BaseGenericTypeRef t; TypeArguments := TypeArguments t; TypeArgumentRefs := TypeArgumentRefs t; TypeParams := TypeParams t; ElementType := ElementType t; KeyType := KeyType t; FunctionSig := FunctionSig t; Fields := Fields t; Methods := Methods t; EnumValues := EnumValues t; TIUsageInfo := TIUsageInfo t; structType := structType t; interfaceType := interfaceType t; typeParamList := typeParamList t |}.
Definition set_AliasTarget (v : option ptr) (t : TypeInfo) : TypeInfo :=
  {| Kind := Kind t; TIVisibility := TIVisibility t; CannonicalName := CannonicalName t; TIName := TIName t; AstFile := AstFile t; TITypeSpec := TITypeSpec t; TIPackage := TIPackage t; TIAnnotations := TIAnnotations t; IsGeneric := IsGeneric t; IsAlias := IsAlias t; AliasTarget := v; IsGenericInstantiation := IsGenericInstantiation t; BaseGenericType := BaseGenericType t; BaseGenericTypeRef := BaseGenericTypeRef t; TypeArguments := TypeArguments t; TypeArgumentRefs := TypeArgumentRefs t; TypeParams := TypeParams t; ElementType := ElementType t; KeyType := KeyType t; FunctionSig := FunctionSig t; Fields := Fields t; Methods := Methods t; EnumValues := EnumValues t; TIUsageInfo := TIUsageInfo t; structType := structType t; interfaceType := interfaceType t; typeParamList := typeParamList t |}.
Definition set_IsGenericInstantiation (v : bool) (t : TypeInfo) : TypeInfo :=
  {| Kind := Kind t; TIVisibility := TIVisibility t; CannonicalName := CannonicalName t; TIName := TIName t; AstFile := AstFile t; TITypeSpec := TITypeSpec t; TIPackage := TIPackage t; TIAnnotations := TIAnnotations t; IsGeneric := IsGeneric t; IsAlias := IsAlias t; AliasTarget := AliasTarget t; IsGenericInstantiation := v; BaseGenericType := BaseGenericType t; BaseGenericTypeRef := BaseGenericTypeRef t; TypeArguments := TypeArguments t; TypeArgumentRefs := TypeArgumentRefs t; TypeParams := TypeParams t; ElementType := ElementType t; KeyType := KeyType t; FunctionSig := FunctionSig t; Fields := Fields t; Methods := Methods t; EnumValues := EnumValues t; TIUsageInfo := TIUsageInfo t; structType := structType t; interfaceType := interfaceType t; typeParamList := typeParamList t |}.
Definition set_BaseGenericType (v : option ptr) (t : TypeInfo) : TypeInfo :=
  {| Kind := Kind t; TIVisibility := TIVisibility t; CannonicalName := CannonicalName t; TIName := TIName t; AstFile := AstFile t; TITypeSpec := TITypeSpec t; TIPackage := TIPackage t; TIAnnotations := TIAnnotations t; IsGeneric := IsGeneric t; IsAlias := IsAlias t; AliasTarget := AliasTarget t; IsGenericInstantiation := IsGenericInstantiation t; BaseGenericType := v; BaseGenericTypeRef := BaseGenericTypeRef t; TypeArguments := TypeArguments t; TypeArgumentRefs := TypeArgumentRefs t; TypeParams := TypeParams t; ElementType := ElementType t; KeyType := KeyType t; FunctionSig := FunctionSig t; Fields := Fields t; Methods := Methods t; EnumValues := EnumValues t; TIUsageInfo := TIUsageInfo t; structType := structType t; interfaceType := interfaceType t; typeParamList := typeParamList t |}.
Definition set_BaseGenericTypeRef (v : string) (t : TypeInfo) : TypeInfo :=
  {| Kind := Kind t; TIVisibility := TIVisibility t; CannonicalName := CannonicalName t; TIName := TIName t; AstFile := AstFile t; TITypeSpec := TITypeSpec t; TIPackage := TIPackage t; TIAnnotations := TIAnnotations t; IsGeneric := IsGeneric t; IsAlias := IsAlias t; AliasTarget := AliasTarget t; IsGenericInstantiation := IsGenericInstantiation t; BaseGenericType := BaseGenericType t; BaseGenericTypeRef := v; TypeArguments := TypeArguments t; TypeArgumentRefs := TypeArgumentRefs t; TypeParams := TypeParams t; ElementType := ElementType t; KeyType := KeyType t; FunctionSig := FunctionSig t; Fields := Fields t; Methods := Methods t; EnumValues := EnumValues t; TIUsageInfo := TIUsageInfo t; structType := structType t; interfaceType := interfaceType t; typeParamList := typeParamList t |}.
Definition set_TypeArguments (v : list (option ptr)) (t : TypeInfo) : TypeInfo :=
  {| Kind := Kind t; TIVisibility := TIVisibility t; CannonicalName := CannonicalName t; TIName := TIName t; AstFile := AstFile t; TITypeSpec := TITypeSpec t; TIPackage := TIPackage t; TIAnnotations := TIAnnotations t; IsGeneric := IsGeneric t; IsAlias := IsAlias t; AliasTarget := AliasTarget t; IsGenericInstantiation := IsGenericInstantiation t; BaseGenericType := BaseGenericType t; BaseGenericTypeRef := BaseGenericTypeRef t; TypeArguments := v; TypeArgumentRefs := TypeArgumentRefs t; TypeParams := TypeParams t; ElementType := ElementType t; KeyType := KeyType t; FunctionSig := FunctionSig t; Fields := Fields t; Methods := Methods t; EnumValues := EnumValues t; TIUsageInfo := TIUsageInfo t; structType := structType t; interfaceType := interfaceType t; typeParamList := typeParamList t |}.
Definition set_TypeArgumentRefs (v : list string) (t : TypeInfo) : TypeInfo :=
  {| Kind := Kind t; TIVisibility := TIVisibility t; CannonicalName := CannonicalName t; TIName := TIName t; AstFile := AstFile t; TITypeSpec := TITypeSpec t; TIPackage := TIPackage t; TIAnnotations := TIAnnotations t; IsGeneric := IsGeneric t; IsAlias := IsAlias t; AliasTarget := AliasTarget t; IsGenericInstantiation := IsGenericInstantiation t; BaseGenericType := BaseGenericType t; BaseGenericTypeRef := BaseGenericTypeRef t; TypeArguments := TypeArguments t; TypeArgumentRefs := v; TypeParams := TypeParams t; ElementType := ElementType t; KeyType := KeyType t; FunctionSig := FunctionSig t; Fields := Fields t; Methods := Methods t; EnumValues := EnumValues t; TIUsageInfo := TIUsageInfo t; structType := structType t; interfaceType := interfaceType t; typeParamList := typeParamList t |}.
Definition set_TypeParams (v : list TypeParam) (t : TypeInfo) : TypeInfo :=
  {| Kind := Kind t; TIVisibility := TIVisibility t; CannonicalName := CannonicalName t; TIName := TIName t; AstFile := AstFile t; TITypeSpec := TITypeSpec t; TIPackage := TIPackage t; TIAnnotations := TIAnnotations t; IsGeneric := IsGeneric t; IsAlias := IsAlias t; AliasTarget := AliasTarget t; IsGenericInstantiation := IsGenericInstantiation t; BaseGenericType := BaseGenericType t; BaseGenericTypeRef := BaseGenericTypeRef t; TypeArguments := TypeArguments t; TypeArgumentRefs := TypeArgumentRefs t; TypeParams := v; ElementType := ElementType t; KeyType := KeyType t; FunctionSig := FunctionSig t; Fields := Fields t; Methods := Methods t; EnumValues := EnumValues t; TIUsageInfo := TIUsageInfo t; structType := structType t; interfaceType := interfaceType t; typeParamList := typeParamList t |}.
Definition set_ElementType (v : option ptr) (t : TypeInfo) : TypeInfo :=
  {| Kind := Kind t; TIVisibility := TIVisibility t; CannonicalName := CannonicalName t; TIName := TIName t; AstFile := AstFile t; TITypeSpec := TITypeSpec t; TIPackage := TIPackage t; TIAnnotations := TIAnnotations t; IsGeneric := IsGeneric t; IsAlias := IsAlias t; AliasTarget := AliasTarget t; IsGenericInstantiation := IsGenericInstantiation t; BaseGenericType := BaseGenericType t; BaseGenericTypeRef := BaseGenericTypeRef t; TypeArguments := TypeArguments t; TypeArgumentRefs := TypeArgumentRefs t; TypeParams := TypeParams t; ElementType := v; KeyType := KeyType t; FunctionSig := FunctionSig t; Fields := Fields t; Methods := Methods t; EnumValues := EnumValues t; TIUsageInfo := TIUsageInfo t; structType := structType t; interfaceType := interfaceType t; typeParamList := typeParamList t |}.
Definition set_KeyType (v : option ptr) (t : TypeInfo) : TypeInfo :=
  {| Kind := Kind t; TIVisibility := TIVisibility t; CannonicalName := CannonicalName t; TIName := TIName t; AstFile := AstFile t; TITypeSpec := TITypeSpec t; TIPackage := TIPackage t; TIAnnotations := TIAnnotations t; IsGeneric := IsGeneric t; IsAlias := IsAlias t; AliasTarget := AliasTarget t; IsGenericInstantiation := IsGenericInstantiation t; BaseGenericType := BaseGenericType t; BaseGenericTypeRef := BaseGenericTypeRef t; TypeArguments := TypeArguments t; TypeArgumentRefs := TypeArgumentRefs t; TypeParams := TypeParams t; ElementType := ElementType t; KeyType := v; FunctionSig := FunctionSig t; Fields := Fields t; Methods := Methods t; EnumValues := EnumValues t; TIUsageInfo := TIUsageInfo t; structType := structType t; interfaceType := interfaceType t; typeParamList := typeParamList t |}.
Definition set_FunctionSig (v : option FunctionInfo) (t : TypeInfo) : TypeInfo :=
  {| Kind := Kind t; TIVisibility := TIVisibility t; CannonicalName := CannonicalName t; TIName := TIName t; AstFile := AstFile t; TITypeSpec := TITypeSpec t; TIPackage := TIPackage t; TIAnnotations := TIAnnotations t; IsGeneric := IsGeneric t; IsAlias := IsAlias t; AliasTarget := AliasTarget t; IsGenericInstantiation := IsGenericInstantiation t; BaseGenericType := BaseGenericType t; BaseGenericTypeRef := BaseGenericTypeRef t; TypeArguments := TypeArguments t; TypeArgumentRefs := TypeArgumentRefs t; TypeParams := TypeParams t; ElementType := ElementType t; KeyType := KeyType t; FunctionSig := v; Fields := Fields t; Methods := Methods t; EnumValues := EnumValues t; TIUsageInfo := TIUsageInfo t; structType := structType t; interfaceType := interfaceType t; typeParamList := typeParamList t |}.
Definition set_Fields (v : list FieldInfo) (t : TypeInfo) : TypeInfo :=
  {| Kind := Kind t; TIVisibility := TIVisibility t; CannonicalName := CannonicalName t; TIName := TIName t; AstFile := AstFile t; TITypeSpec := TITypeSpec t; TIPackage := TIPackage t; TIAnnotations := TIAnnotations t; IsGeneric := IsGeneric t; IsAlias := IsAlias t; AliasTarget := AliasTarget t; IsGenericInstantiation := IsGenericInstantiation t; BaseGenericType := BaseGenericType t; BaseGenericTypeRef := BaseGenericTypeRef t; TypeArguments := TypeArguments t; TypeArgumentRefs := TypeArgumentRefs t; TypeParams := TypeParams t; ElementType := ElementType t; KeyType := KeyType t; FunctionSig := FunctionSig t; Fields := v; Methods := Methods t; EnumValues := EnumValues t; TIUsageInfo := TIUsageInfo t; structType := structType t; interfaceType := interfaceType t; typeParamList := typeParamList t |}.
Definition set_Methods (v : list FunctionInfo) (t : TypeInfo) : TypeInfo :=
  {| Kind := Kind t; TIVisibility := TIVisibility t; CannonicalName := CannonicalName t; TIName := TIName t; AstFile := AstFile t; TITypeSpec := TITypeSpec t; TIPackage := TIPackage t; TIAnnotations := TIAnnotations t; IsGeneric := IsGeneric t; IsAlias := IsAlias t; AliasTarget := AliasTarget t; IsGenericInstantiation := IsGenericInstantiation t; BaseGenericType := BaseGenericType t; BaseGenericTypeRef := BaseGenericTypeRef t; TypeArguments := TypeArguments t; TypeArgumentRefs := TypeArgumentRefs t; TypeParams := TypeParams t; ElementType := ElementType t; KeyType := KeyType t; FunctionSig := FunctionSig t; Fields := Fields t; Methods := v; EnumValues := EnumValues t; TIUsageInfo := TIUsageInfo t; structType := structType t; interfaceType := interfaceType t; typeParamList := typeParamList t |}.
Definition set_EnumValues (v : list EnumValue) (t : TypeInfo) : TypeInfo :=
  {| Kind := Kind t; TIVisibility := TIVisibility t; CannonicalName := CannonicalName t; TIName := TIName t; AstFile := AstFile t; TITypeSpec := TITypeSpec t; TIPackage := TIPackage t; TIAnnotations := TIAnnotations t; IsGeneric := IsGeneric t; IsAlias := IsAlias t; AliasTarget := AliasTarget t; IsGenericInstantiation := IsGenericInstantiation t; BaseGenericType := BaseGenericType t; BaseGenericTypeRef := BaseGenericTypeRef t; TypeArguments := TypeArguments t; TypeArgumentRefs := TypeArgumentRefs t; TypeParams := TypeParams t; ElementType := ElementType t; KeyType := KeyType t; FunctionSig := FunctionSig t; Fields := Fields t; Methods := Methods t; EnumValues := v; TIUsageInfo := TIUsageInfo t; structType := structType t; interfaceType := interfaceType t; typeParamList := typeParamList t |}.
Definition set_TIUsageInfo (v : UsageInfo) (t : TypeInfo) : TypeInfo :=
  {| Kind := Kind t; TIVisibility := TIVisibility t; CannonicalName := CannonicalName t; TIName := TIName t; AstFile := AstFile t; TITypeSpec := TITypeSpec t; TIPackage := TIPackage t; TIAnnotations := TIAnnotations t; IsGeneric := IsGeneric t; IsAlias := IsAlias t; AliasTarget := AliasTarget t; IsGenericInstantiation := IsGenericInstantiation t; BaseGenericType := BaseGenericType t; BaseGenericTypeRef := BaseGenericTypeRef t; TypeArguments := TypeArguments t; TypeArgumentRefs := TypeArgumentRefs t; TypeParams := TypeParams t; ElementType := ElementType t; KeyType := KeyType t; FunctionSig := FunctionSig t; Fields := Fields t; Methods := Methods t; EnumValues := EnumValues t; TIUsageInfo := v; structType := structType t; interfaceType := interfaceType t; typeParamList := typeParamList t |}.
Definition set_structType (v : option (option (list Field))) (t : TypeInfo) : TypeInfo :=
  {| Kind := Kind t; TIVisibility := TIVisibility t; CannonicalName := CannonicalName t; TIName := TIName t; AstFile := AstFile t; TITypeSpec := TITypeSpec t; TIPackage := TIPackage t; TIAnnotations := TIAnnotations t; IsGeneric := IsGeneric t; IsAlias := IsAlias t; AliasTarget := AliasTarget t; IsGenericInstantiation := IsGenericInstantiation t; BaseGenericType := BaseGenericType t; BaseGenericTypeRef := BaseGenericTypeRef t; TypeArguments := TypeArguments t; TypeArgumentRefs := TypeArgumentRefs t; TypeParams := TypeParams t; ElementType := ElementType t; KeyType := KeyType t; FunctionSig := FunctionSig t; Fields := Fields t; Methods := Methods t; EnumValues := EnumValues t; TIUsageInfo := TIUsageInfo t; structType := v; interfaceType := interfaceType t; typeParamList := typeParamList t |}.
Definition set_interfaceType (v : option (list Field)) (t : TypeInfo) : TypeInfo :=
  {| Kind := Kind t; TIVisibility := TIVisibility t; CannonicalName := CannonicalName t; TIName := TIName t; AstFile := AstFile t; TITypeSpec := TITypeSpec t; TIPackage := TIPackage t; TIAnnotations := TIAnnotations t; IsGeneric := IsGeneric t; IsAlias := IsAlias t; AliasTarget := AliasTarget t; IsGenericInstantiation := IsGenericInstantiation t; BaseGenericType := BaseGenericType t; BaseGenericTypeRef := BaseGenericTypeRef t; TypeArguments := TypeArguments t; TypeArgumentRefs := TypeArgumentRefs t; TypeParams := TypeParams t; ElementType := ElementType t; KeyType := KeyType t; FunctionSig := FunctionSig t; Fields := Fields t; Methods := Methods t; EnumValues := EnumValues t; TIUsageInfo := TIUsageInfo t; structType := structType t; interfaceType := v; typeParamList := typeParamList t |}.
Definition set_typeParamList (v : option (list Field)) (t : TypeInfo) : TypeInfo :=
  {| Kind := Kind t; TIVisibility := TIVisibility t; CannonicalName := CannonicalName t; TIName := TIName t; AstFile := AstFile t; TITypeSpec := TITypeSpec t; TIPackage := TIPackage t; TIAnnotations := TIAnnotations t; IsGeneric := IsGeneric t; IsAlias := IsAlias t; AliasTarget := AliasTarget t; IsGenericInstantiation := IsGenericInstantiation t; BaseGenericType := BaseGenericType t; BaseGenericTypeRef := BaseGenericTypeRef t; TypeArguments := TypeArguments t; TypeArgumentRefs := TypeArgumentRefs t; TypeParams := TypeParams t; ElementType := ElementType t; KeyType := KeyType t; FunctionSig := FunctionSig t; Fields := Fields t; Methods := Methods t; EnumValues := EnumValues t; TIUsageInfo := TIUsageInfo t; structType := structType t; interfaceType := interfaceType t; typeParamList := v |}.

End Types.

(* ------------------------------------------------------------------ *)
(** ** The [types] package: the registry and its parsers *)

Module Registry.

Import Annotations Types.

(** *** [utils] helpers *)

Definition basicTypes : list string :=
  ["any"; "bool"; "byte"; "complex128"; "complex64"; "error"; "float32"; "float64";
   "int"; "int16"; "int32"; "int64"; "int8"; "interface{}"; "rune"; "string";
   "uint"; "uint16"; "uint32"; "uint64"; "uint8"; "uintptr"].

(** [utils.IsBasicType]. *)
Definition IsBasicType (n : string) : bool := existsb (String.eqb n) basicTypes.

(** [determineVisibility]. *)
Definition determineVisibility (name : string) : Visibility :=
  match name with
  | EmptyString => VisibilityPrivate
  | String c _ =>
      if IsBasicType name then VisibilityPublic
      else if ((65 <=? nat_of_ascii c) && (nat_of_ascii c <=? 90))%nat then VisibilityPublic
      else VisibilityPrivate
  end.

(** The file-import loop of [utils.ResolvePackagePathFromImports]. *)
Fixpoint resolveFromFileImports (alias : string) (imps : list (option string * string)) : string :=
  match imps with
  | [] => alias
  | (nm, pathLit) :: r =>
      let importPath := Trim pathLit DQ in
      if match nm with Some n => String.eqb n alias | None => false end then importPath
      else if String.eqb (List.last (SplitChar importPath "/"%char) EmptyString) alias then importPath
      else resolveFromFileImports alias r
  end.

(** [utils.ResolvePackagePathFromImports]. *)
Definition ResolvePackagePathFromImports (alias : string) (pkg : Package) (file : option File) : string :=
  match List.find (fun '(_, n) => String.eqb n alias) (PkgImports pkg) with
  | Some (path, _) => path
  | None =>
      match file with
      | Some f => resolveFromFileImports alias (fImports f)
      | None => alias
      end
  end.

Definition qualify (pkg : Package) (n : string) : string := PkgPath pkg ++ "." ++ n.

(** [utils.GetCanonicalNameFromExpr] (with a non-nil package). *)
Fixpoint GetCanonicalNameFromExpr (e : Expr) (typeName : string) (pkg : Package) (file : option File)
  : string :=
  if negb (String.eqb typeName EmptyString) then
    (if IsBasicType typeName then typeName else qualify pkg typeName)
  else match e with
  | Ident n => if IsBasicType n then n else qualify pkg n
  | SelectorExpr x s => ResolvePackagePathFromImports x pkg file ++ "." ++ s
  | StarExpr x => GetCanonicalNameFromExpr x typeName pkg file
  | IndexExpr x i =>
      GetCanonicalNameFromExpr x EmptyString pkg file ++ "[" ++
      GetCanonicalNameFromExpr i EmptyString pkg file ++ "]"
  | IndexListExpr x is =>
      GetCanonicalNameFromExpr x EmptyString pkg file ++ "[" ++
      String.concat "," (map (fun a => GetCanonicalNameFromExpr a EmptyString pkg file) is) ++ "]"
  | _ => qualify pkg "anonymous"
  end.

(** *** The state: the registry [ctx.Types], [ctx.ConstsByType] and the
    heap of [TypeInfo] values addressed by pointers *)

Record State := mkState {
  ctxTypes : gmap string ptr;
  Heap : gmap ptr TypeInfo;
  Next : ptr;
  ConstsByType : gmap string (list EnumValue)
}.

Definition emptyState : State := mkState ∅ ∅ 0 ∅.

(** A Go run either returns or stops: a run-time [Panic], or the fuel of
    the model runs out ([OutOfFuel], never a behaviour of the program). *)
Inductive Failure := Panic (what : string) | OutOfFuel.

Definition M (A : Type) : Type := State -> Failure + (A * State).

Definition ret {A} (a : A) : M A := fun st => inr (a, st).

Definition bind {A B} (m : M A) (k : A -> M B) : M B :=
  fun st => match m st with
            | inl e => inl e
            | inr (a, st') => k a st'
            end.

Definition fail {A} (e : Failure) : M A := fun _ => inl e.

Notation "'let*' x ':=' m 'in' k" := (bind m (fun x => k))
  (at level 200, x name, m at level 100, k at level 200).

Definition nilDeref := Panic "invalid memory address or nil pointer dereference".

Definition liftOpt {A} (o : option A) : M A :=
  match o with Some a => ret a | None => fail nilDeref end.

Definition load (p : ptr) : M TypeInfo :=
  fun st => match Heap st !! p with
            | Some t => inr (t, st)
            | None => inl nilDeref
            end.

Definition store (p : ptr) (t : TypeInfo) : M unit :=
  fun st => inr (tt, mkState (ctxTypes st) (<[p := t]> (Heap st)) (Next st) (ConstsByType st)).

Definition modify (p : ptr) (f : TypeInfo -> TypeInfo) : M unit :=
  let* t := load p in store p (f t).

(** [&TypeInfo{...}]: a fresh pointer. *)
Definition alloc (t : TypeInfo) : M ptr :=
  fun st => inr (Next st, mkState (ctxTypes st) (<[Next st := t]> (Heap st)) (S (Next st))
                                  (ConstsByType st)).

(** [ctx.Types[c]] and [ctx.Types[c] = p]. *)
Definition lookupType (c : string) : M (option ptr) := fun st => inr (ctxTypes st !! c, st).

Definition setType (c : string) (p : ptr) : M unit :=
  fun st => inr (tt, mkState (<[c := p]> (ctxTypes st)) (Heap st) (Next st) (ConstsByType st)).

(** [ctx.ConstsByType[k] = append(ctx.ConstsByType[k], ev)]. *)
Definition appendConst (k : string) (ev : EnumValue) : M unit :=
  fun st => inr (tt, mkState (ctxTypes st) (Heap st) (Next st)
                   (<[k := app (default [] (ConstsByType st !! k)) [ev]]> (ConstsByType st))).

Fixpoint forM_ {A} (l : list A) (f : A -> M unit) : M unit :=
  match l with
  | [] => ret tt
  | x :: r => let* _ := f x in forM_ r f
  end.

Fixpoint mapM {A B} (f : A -> M B) (l : list A) : M (list B) :=
  match l with
  | [] => ret []
  | x :: r => let* y := f x in let* ys := mapM f r in ret (y :: ys)
  end.

(** [annotations.ParseAnnotations]; a nil group panics. *)
Definition parseAnnotationsM (gs : list CommentGroup) : M (list Annotation) :=
  liftOpt (ParseAnnotations gs).

(** *** Usage tracking *)

(** [UpdateUsageFlags] on the [UsageInfo] of a node. *)
Definition UpdateUsageFlags (u : UsageInfo) : UsageInfo :=
  mkUsage ((0 <? length (EmbeddedIn u))%nat && (length (ReferencedIn u) =? 0)%nat)
          (EmbeddedIn u) (ReferencedIn u).

(** The two appends of the tracking functions, each followed by
    [UpdateUsageFlags]. *)
Definition addEmbeddedRef (r : ReferenceInfo) (u : UsageInfo) : UsageInfo :=
  UpdateUsageFlags (mkUsage (IsOnlyEmbedded u) (app (EmbeddedIn u) [r]) (ReferencedIn u)).

Definition addReferencedRef (r : ReferenceInfo) (u : UsageInfo) : UsageInfo :=
  UpdateUsageFlags (mkUsage (IsOnlyEmbedded u) (EmbeddedIn u) (app (ReferencedIn u) [r])).

(** [trackEmbeddedUsage(embedded, parent)]. *)
Definition trackEmbeddedUsage (q parent : ptr) : M unit :=
  let* pt := load parent in
  modify q (fun t => set_TIUsageInfo
    (addEmbeddedRef (mkRef (CannonicalName pt) EmptyString ReferenceKindEmbedded) (TIUsageInfo t)) t).

(** [trackFieldUsage(fieldType, parent, fieldName)]. *)
Definition trackFieldUsage (q parent : ptr) (fieldName : string) : M unit :=
  let* pt := load parent in
  modify q (fun t => set_TIUsageInfo
    (addReferencedRef (mkRef (CannonicalName pt) fieldName ReferenceKindField) (TIUsageInfo t)) t).

(** [trackParameterUsage(paramType, functionType, paramName)]. *)
Definition trackParameterUsage (q : ptr) (functionType paramName : string) : M unit :=
  modify q (fun t => set_TIUsageInfo
    (addReferencedRef (mkRef functionType paramName ReferenceKindParameter) (TIUsageInfo t)) t).

(** [trackReturnUsage(returnType, functionType, returnName)]. *)
Definition trackReturnUsage (q : ptr) (functionType returnName : string) : M unit :=
  modify q (fun t => set_TIUsageInfo
    (addReferencedRef (mkRef functionType returnName ReferenceKindReturn) (TIUsageInfo t)) t).

(** *** [NewTypeInfoFromExpr] *)

Definition emptyUsage : UsageInfo := mkUsage false [] [].

(** The base [&TypeInfo{...}] literal of [NewTypeInfoFromExpr]; every
    branch then sets the kind and the package. *)
Definition baseTypeInfo (canonical typeName : string) (file : option File) (ts : option TypeSpec)
    (pkg : Package) (ann : list Annotation) : TypeInfo :=
  mkTypeInfo TypeKindStruct (determineVisibility typeName) canonical typeName file ts pkg ann
    false false None false None EmptyString [] [] [] None None None [] [] [] emptyUsage None None None.

(** The type parameters of a declaration: one [TypeParam] per name. *)
Definition typeParamsOf (ps : list Field) : list TypeParam :=
  flat_map (fun f => map (fun n => mkTypeParam n None EmptyString) (fieldNames f)) ps.

(** [NewTypeInfoFromExpr]: [None] is a panic, [Some None] the nil result. *)
Fixpoint NewTypeInfoFromExpr (e : Expr) (typeName : string) (groups : option (list CommentGroup))
    (file : option File) (pkg : Package) (ts : option TypeSpec) : option (option TypeInfo) :=
  match e with
  | StarExpr x => NewTypeInfoFromExpr x EmptyString groups file pkg ts
  | _ =>
    ann ← (match groups with Some gs => ParseAnnotations gs | None => Some [] end);
    let canonical :=
      if negb (String.eqb typeName EmptyString) && negb (IsBasicType typeName)
      then qualify pkg typeName else typeName in
    let ti0 := baseTypeInfo canonical typeName file ts pkg ann in
    if match ts with Some s => tsAssign s | None => false end then
      Some (Some (set_IsAlias true (set_Kind TypeKindAlias ti0)))
    else
    let ti1 :=
       match ts with
       | Some s =>
           match tsTypeParams s with
           | Some ps => set_IsGeneric (negb (bool_decide (ps = [])))
                          (set_typeParamList (Some ps) (set_TypeParams (typeParamsOf ps) ti0))
           | None => ti0
           end
       | None => ti0
       end in
     match e with
     | StructType fs => Some (Some (set_structType (Some (Some fs)) (set_Kind TypeKindStruct ti1)))
     | InterfaceType ms => Some (Some (set_interfaceType (Some ms) (set_Kind TypeKindInterface ti1)))
     | FuncType _ _ => Some (Some (set_Kind TypeKindFunction ti1))
     | Ident n =>
         if negb (String.eqb typeName EmptyString) then
           Some (Some (set_CannonicalName (qualify pkg typeName)
                         (set_TIName typeName (set_Kind TypeKindStruct ti1))))
         else if IsBasicType n then Some None
         else Some (Some (set_CannonicalName (qualify pkg n) (set_TIName n (set_Kind TypeKindStruct ti1))))
     | SelectorExpr x s =>
         let path := ResolvePackagePathFromImports x pkg file in
         let ti2 := if String.eqb typeName EmptyString then set_TIName s ti1 else ti1 in
         Some (Some (set_TIPackage (mkPackage path x []) (set_CannonicalName (path ++ "." ++ s)
                       (set_Kind TypeKindStruct ti2))))
     | ArrayType len _ =>
         Some (Some (set_structType (Some None)
                       (set_Kind (if len then TypeKindArray else TypeKindSlice) ti1)))
     | MapType _ _ => Some (Some (set_structType (Some None) (set_Kind TypeKindMap ti1)))
     | IndexExpr _ _ | IndexListExpr _ _ =>
         Some (Some (set_structType (Some None) (set_IsGenericInstantiation true
                       (set_Kind TypeKindStruct ti1))))
     | _ => Some (Some (set_Kind TypeKindStruct ti1))
     end
  end.

(** *** The scan options ([config.ScanOptions]; a [ScanMode] is a string) *)

Record ScanOptions := mkScanOptions {
  soStructs : string; soStructMethods : string; soInterfaces : string;
  soFunctions : string; soEnums : string
}.

Definition scanEnabled (m : string) : bool :=
  negb (String.eqb m "none") && negb (String.eqb m "disabled").

(** [GetOrCreateTypeInfo]'s signature: expression, type name, comment
    groups ([None] is a nil slice), file, package, type spec. *)
Definition GocFn : Type :=
  Expr -> string -> option (list CommentGroup) -> option File -> Package -> option TypeSpec ->
  M (option ptr).

Section Parsers.

Variable cfg : ScanOptions.

(** [shouldScanStructMethods]. *)
Definition shouldScanStructMethods : bool := scanEnabled (soStructMethods cfg).

(** The recursive calls to [GetOrCreateTypeInfo] go through [goc]. *)
Variable goc : GocFn.

(** [ptr.CannonicalName] of a possibly nil pointer. *)
Definition refOf (o : option ptr) : M (option string) :=
  match o with
  | Some q => let* n := load q in ret (Some (CannonicalName n))
  | None => ret None
  end.

(** [parseTypedElement]. *)
Definition parseTypedElement (typeExpr0 : Expr) (name : string) (groups : option (list CommentGroup))
    (file : option File) (pkg : Package) : M TypedElement :=
  let '(isPointer, typeExpr) :=
    match typeExpr0 with StarExpr x => (true, x) | _ => (false, typeExpr0) end in
  let* ann := parseAnnotationsM (default [] groups) in
  let* ti :=
    match typeExpr with
    | StructType _ | InterfaceType _ =>
        goc typeExpr (if String.eqb name EmptyString then "AnonymousType" else name ++ "Type")
            None file pkg None
    | _ => goc typeExpr EmptyString None file pkg None
    end in
  match ti with
  | Some q => let* n := load q in
              ret (mkTE name isPointer ann (TIVisibility n) (CannonicalName n) (Some q))
  | None =>
      let fallback :=
        if negb (String.eqb name EmptyString) then determineVisibility name else VisibilityPublic in
      ret (match typeExpr with
           | Ident i => if IsBasicType i then mkTE name isPointer ann VisibilityPublic i None
                        else mkTE name isPointer ann fallback EmptyString None
           | _ => mkTE name isPointer ann fallback EmptyString None
           end)
  end.

Definition withTEName (n : string) (te : TypedElement) : TypedElement :=
  mkTE n (teIsPointer te) (teAnnotations te) (teVisibility te) (teTypeRef te) (teTypeInfo te).

(** [NewFieldInfoFromAst] (one [FieldInfo] per [*ast.Field], named after
    its first name). *)
Definition NewFieldInfoFromAst (f : Field) (file : option File) (pkg : Package) : M FieldInfo :=
  let* te := parseTypedElement (fieldType f) EmptyString (Some [fieldDoc f; fieldComment f]) file pkg in
  let isEmbedded := match fieldNames f with [] => true | _ => false end in
  let fieldName :=
    match fieldNames f with
    | n :: _ => n
    | [] => if negb (String.eqb (teName te) EmptyString) then teName te
            else match fieldType f with
                 | Ident n => n
                 | SelectorExpr _ s => s
                 | _ => "EmbeddedField"
                 end
    end in
  ret (mkFieldInfo (withTEName fieldName te) isEmbedded (determineVisibility fieldName)).

(** The parameter loop shared by the signature parsers; [skipUnnamed] is
    set for [parseMethods], which only walks [param.Names]. *)
Definition parseParamList (skipUnnamed : bool) (ps : list Field) (file : option File) (pkg : Package)
    (key : string) : M (list TypedElement) :=
  let* tes := mapM (fun f =>
    match fieldNames f with
    | [] =>
        if skipUnnamed then ret [] else
        let* te := parseTypedElement (fieldType f) EmptyString None file pkg in
        let* _ := match teTypeInfo te with
                  | Some q => trackParameterUsage q key EmptyString
                  | None => ret tt
                  end in
        ret [te]
    | ns =>
        mapM (fun n =>
          let* te := parseTypedElement (fieldType f) n None file pkg in
          let* _ := match teTypeInfo te with
                    | Some q => trackParameterUsage q key n
                    | None => ret tt
                    end in
          ret te) ns
    end) ps in
  ret (concat tes).

(** The result loop shared by the signature parsers. *)
Definition parseResultList (rs : list Field) (file : option File) (pkg : Package) (key : string)
  : M (list TypedElement) :=
  let* tes := mapM (fun f =>
    match fieldNames f with
    | [] =>
        let* te := parseTypedElement (fieldType f) EmptyString None file pkg in
        let* _ := match teTypeInfo te with
                  | Some q => trackReturnUsage q key EmptyString
                  | None => ret tt
                  end in
        ret [te]
    | ns =>
        mapM (fun n =>
          let* te := parseTypedElement (fieldType f) n None file pkg in
          let* _ := match teTypeInfo te with
                    | Some q => trackReturnUsage q key n
                    | None => ret tt
                    end in
          ret te) ns
    end) rs in
  ret (concat tes).

Definition addMethod (p : ptr) (fi : FunctionInfo) : M unit :=
  modify p (fun t => set_Methods (app (Methods t) [fi]) t).

(** [ti.parseMethods(file, typeName, ctx)]. *)
Definition parseMethods (p : ptr) (file : File) (typeName : string) : M unit :=
  let* ti := load p in
  forM_ (fDecls file) (fun d =>
    match d with
    | DFunc fd =>
        match fdRecv fd with
        | None => ret tt
        | Some rt =>
            let recvTypeName :=
              match rt with
              | Ident n => n
              | StarExpr (Ident n) => n
              | _ => EmptyString
              end in
            if String.eqb recvTypeName typeName then
              let* ann := parseAnnotationsM [fdDoc fd] in
              let* parms := parseParamList true (fdParams fd) (Some file) (TIPackage ti) (CannonicalName ti) in
              let* rets := parseResultList (fdResults fd) (Some file) (TIPackage ti) (CannonicalName ti) in
              addMethod p (mkFunctionInfo (fdName fd) ann parms rets (determineVisibility (fdName fd)))
            else ret tt
        end
    | DGen _ => ret tt
    end).

(** [ti.parseContainerTypes(ctx)]. *)
Definition parseContainerTypes (p : ptr) : M unit :=
  let* ti := load p in
  match TITypeSpec ti with
  | None => ret tt
  | Some ts =>
      match tsType ts with
      | ArrayType _ elt =>
          let* et := goc elt EmptyString None (AstFile ti) (TIPackage ti) None in
          let* _ := modify p (set_ElementType et) in
          match et with Some q => trackFieldUsage q p "element" | None => ret tt end
      | MapType k v =>
          let* kt := goc k EmptyString None (AstFile ti) (TIPackage ti) None in
          let* _ := modify p (set_KeyType kt) in
          let* _ := match kt with Some q => trackFieldUsage q p "key" | None => ret tt end in
          let* vt := goc v EmptyString None (AstFile ti) (TIPackage ti) None in
          let* _ := modify p (set_ElementType vt) in
          match vt with Some q => trackFieldUsage q p "value" | None => ret tt end
      | _ => ret tt
      end
  end.

(** [ti.parseFunctionSignature(ctx)]. *)
Definition parseFunctionSignature (p : ptr) : M unit :=
  let* ti := load p in
  match TITypeSpec ti with
  | Some ts =>
      match tsType ts with
      | FuncType ps rs =>
          let* parms := parseParamList false ps (AstFile ti) (TIPackage ti) (CannonicalName ti) in
          let* rets := parseResultList rs (AstFile ti) (TIPackage ti) (CannonicalName ti) in
          modify p (set_FunctionSig (Some (mkFunctionInfo (TIName ti) (TIAnnotations ti) parms rets
                                             (determineVisibility (TIName ti)))))
      | _ => ret tt
      end
  | None => ret tt
  end.

(** [x != nil]. *)
Definition notNil {A} (o : option A) : bool := match o with Some _ => true | None => false end.

Definition isContainerKind (k : TypeKind) : bool :=
  match k with TypeKindArray | TypeKindSlice | TypeKindMap => true | _ => false end.

Definition kindIs (k k' : TypeKind) : bool :=
  match k, k' with
  | TypeKindStruct, TypeKindStruct | TypeKindInterface, TypeKindInterface
  | TypeKindFunction, TypeKindFunction | TypeKindEnum, TypeKindEnum
  | TypeKindBasic, TypeKindBasic | TypeKindAlias, TypeKindAlias
  | TypeKindArray, TypeKindArray | TypeKindSlice, TypeKindSlice | TypeKindMap, TypeKindMap => true
  | _, _ => false
  end.

(** One element of [ti.interfaceType.Methods.List] in [parseFields]. *)
Definition parseInterfaceMethod (p : ptr) (ti : TypeInfo) (m : Field) : M unit :=
  match fieldNames m with
  | [] =>
      let* et := goc (fieldType m) EmptyString None (AstFile ti) (TIPackage ti) None in
      match et with
      | Some q =>
          let* qn := load q in
          if kindIs (Kind qn) TypeKindInterface then
            let* _ := trackEmbeddedUsage q p in
            let* qn' := load q in
            forM_ (Methods qn') (fun em =>
              addMethod p (mkFunctionInfo (fnName em) (fnAnnotations em) (fnParms em) (fnReturns em)
                                          (fnVisibility em)))
          else ret tt
      | None => ret tt
      end
  | ns =>
      forM_ ns (fun mn =>
        match fieldType m with
        | FuncType ps rs =>
            let* ann := parseAnnotationsM [fieldDoc m; fieldComment m] in
            let key := CannonicalName ti ++ "." ++ mn in
            let* parms := parseParamList false ps (AstFile ti) (TIPackage ti) key in
            let* rets := parseResultList rs (AstFile ti) (TIPackage ti) key in
            addMethod p (mkFunctionInfo mn ann parms rets (determineVisibility mn))
        | _ => ret tt
        end)
  end.

(** [ti.parseFields(ctx)]: the four branches of its [if]/[else if] chain. *)
Definition parseFields (p : ptr) : M unit :=
  let* ti := load p in
  match Kind ti, structType ti with
  | TypeKindStruct, Some (Some fs) =>
      let* _ := forM_ fs (fun f =>
        let* fi := NewFieldInfoFromAst f (AstFile ti) (TIPackage ti) in
        let* _ := match teTypeInfo (fiTE fi) with
                  | Some q => if fiIsEmbedded fi then trackEmbeddedUsage q p
                              else trackFieldUsage q p (teName (fiTE fi))
                  | None => ret tt
                  end in
        modify p (fun t => set_Fields (app (Fields t) [fi]) t)) in
      let* _ := match AstFile ti with
                | Some file =>
                    if negb (String.eqb (TIName ti) EmptyString) && shouldScanStructMethods
                    then parseMethods p file (TIName ti) else ret tt
                | None => ret tt
                end in
      modify p (set_structType None)
  | k, st =>
      if isContainerKind k && notNil st then
        let* _ := parseContainerTypes p in modify p (set_structType None)
      else if kindIs k TypeKindFunction && notNil st then
        let* _ := parseFunctionSignature p in modify p (set_structType None)
      else if kindIs k TypeKindInterface then
        match interfaceType ti with
        | Some ms => let* _ := forM_ ms (parseInterfaceMethod p ti) in modify p (set_interfaceType None)
        | None => ret tt
        end
      else ret tt
  end.

Fixpoint updateNth {A} (n : nat) (f : A -> A) (l : list A) : list A :=
  match l, n with
  | [], _ => []
  | x :: r, 0 => f x :: r
  | x :: r, S n' => x :: updateNth n' f r
  end.

(** [ti.parseTypeParams(ctx)]. *)
Definition parseTypeParams (p : ptr) : M unit :=
  let* ti := load p in
  match typeParamList ti with
  | None => ret tt
  | Some ps =>
      let fix go (items : list Field) (idx : nat) : M unit :=
        match items with
        | [] => ret tt
        | f :: r =>
            let* t := load p in
            let* _ :=
              if (idx <? length (TypeParams t))%nat then
                let* c := goc (fieldType f) EmptyString None (AstFile ti) (TIPackage ti) None in
                let* cref := refOf c in
                modify p (fun t' => set_TypeParams (updateNth idx (fun tp =>
                  mkTypeParam (tpName tp) c (default (tpTypeRef tp) cref)) (TypeParams t')) t')
              else ret tt in
            go r (S idx)
        end in
      let* _ := go (concat (map (fun f => map (fun _ => f) (fieldNames f)) ps)) 0 in
      modify p (set_typeParamList None)
  end.

(** [ti.parseAliasTarget(ctx)]. *)
Definition parseAliasTarget (p : ptr) : M unit :=
  let* ti := load p in
  match IsAlias ti, TITypeSpec ti, AliasTarget ti with
  | true, Some ts, None =>
      let* t := goc (tsType ts) EmptyString None (AstFile ti) (TIPackage ti) None in
      modify p (set_AliasTarget t)
  | _, _, _ => ret tt
  end.

(** The zero values [make] fills a new slice with. *)
Definition zeroTE : TypedElement := mkTE EmptyString false [] VisibilityZero EmptyString None.
Definition zeroFieldInfo : FieldInfo := mkFieldInfo zeroTE false VisibilityZero.
Definition zeroFunctionInfo : FunctionInfo := mkFunctionInfo EmptyString [] [] [] VisibilityZero.

(** [copy(dst, src)]: the first [min(len(dst), len(src))] elements. *)
Definition goCopy {A} (dst src : list A) : list A :=
  app (firstn (length dst) src) (skipn (length src) dst).

Definition setBase (p : ptr) (b : option ptr) : M unit :=
  let* bref := refOf b in
  modify p (fun t => set_BaseGenericType b
    (match bref with Some r => set_BaseGenericTypeRef r t | None => t end)).

(** [ti.parseGenericInstantiation(ctx)]. *)
Definition parseGenericInstantiation (p : ptr) : M unit :=
  let* ti := load p in
  match IsGenericInstantiation ti, TITypeSpec ti with
  | true, Some ts =>
      let* _ :=
        match tsType ts with
        | IndexExpr x i =>
            let* b := goc x EmptyString None (AstFile ti) (TIPackage ti) None in
            let* _ := setBase p b in
            let* a := goc i EmptyString None (AstFile ti) (TIPackage ti) None in
            let* aref := refOf a in
            modify p (fun t => let t' := set_TypeArguments [a] t in
                               match aref with Some r => set_TypeArgumentRefs [r] t' | None => t' end)
        | IndexListExpr x is =>
            let* b := goc x EmptyString None (AstFile ti) (TIPackage ti) None in
            let* _ := setBase p b in
            let* _ := modify p (set_TypeArgumentRefs []) in
            forM_ is (fun arg =>
              let* a := goc arg EmptyString None (AstFile ti) (TIPackage ti) None in
              let* aref := refOf a in
              modify p (fun t =>
                let t' := set_TypeArguments (app (TypeArguments t) [a]) t in
                match aref with
                | Some r => set_TypeArgumentRefs (app (TypeArgumentRefs t') [r]) t'
                | None => t'
                end))
        | _ => ret tt
        end in
      let* t := load p in
      match BaseGenericType t with
      | None => ret tt
      | Some b =>
          let* bn := load b in
          let* _ := modify p (set_Kind (Kind bn)) in
          let* bn1 := load b in
          let* _ :=
            if (0 <? length (Fields bn1))%nat then
              let* _ := modify p (set_Fields (repeat zeroFieldInfo (length (Fields bn1)))) in
              let* bn2 := load b in
              modify p (fun t => set_Fields (goCopy (Fields t) (Fields bn2)) t)
            else ret tt in
          let* bn3 := load b in
          if (0 <? length (Methods bn3))%nat then
            let* _ := modify p (set_Methods (repeat zeroFunctionInfo (length (Methods bn3)))) in
            let* bn4 := load b in
            modify p (fun t => set_Methods (goCopy (Methods t) (Methods bn4)) t)
          else ret tt
      end
  | _, _ => ret tt
  end.

End Parsers.

(** *** [GetOrCreateTypeInfo] *)

(** [GetOrCreateTypeInfo] (with a non-nil context and expression), its
    nested calls going to [goc]. *)
Definition GetOrCreateTypeInfo_with (cfg : ScanOptions) (goc : GocFn) : GocFn :=
  fun e typeName groups file pkg ts =>
    let canonicalName := GetCanonicalNameFromExpr e typeName pkg file in
    let* cached := lookupType canonicalName in
    match cached with
    | Some p => ret (Some p)
    | None =>
        let* r := liftOpt (NewTypeInfoFromExpr e typeName groups file pkg ts) in
        match r with
        | None => ret None
        | Some ti =>
            let* p := alloc (set_CannonicalName canonicalName ti) in
            let* _ := setType canonicalName p in
            match Kind ti, structType ti with
            | TypeKindStruct, Some _ => let* _ := parseFields cfg goc p in ret (Some p)
            | _, _ => ret (Some p)
            end
        end
    end.

(** The model's fuel bounds the nesting depth of the calls. *)
Fixpoint GetOrCreateTypeInfo (cfg : ScanOptions) (fuel : nat) : GocFn :=
  match fuel with
  | 0 => fun _ _ _ _ _ _ => fail OutOfFuel
  | S f => GetOrCreateTypeInfo_with cfg (GetOrCreateTypeInfo cfg f)
  end.

(** *** [ProcessResult]: declarations *)

(** [pr.shouldScanType(ctx, typeExpr)]. *)
Definition shouldScanType (cfg : ScanOptions) (e : Expr) : bool :=
  match e with
  | StructType _ => scanEnabled (soStructs cfg)
  | InterfaceType _ => scanEnabled (soInterfaces cfg)
  | _ => scanEnabled (soStructs cfg)
  end.

(** [pr.AddTypeSpec(ctx, spec, genDecl, file, pkg)]. *)
Definition AddTypeSpec (cfg : ScanOptions) (fuel : nat) (spec : TypeSpec) (gd : GenDecl) (file : File)
    (pkg : Package) : M unit :=
  if negb (shouldScanType cfg (tsType spec)) then ret tt else
  let* r := liftOpt (NewTypeInfoFromExpr (tsType spec) (tsName spec) (Some [tsDoc spec; gdDoc gd])
                                         (Some file) pkg (Some spec)) in
  match r with
  | None => ret tt
  | Some ti =>
      let* p := alloc ti in
      let* _ := setType (CannonicalName ti) p in
      let goc := GetOrCreateTypeInfo cfg fuel in
      let* _ := parseTypeParams goc p in
      let* _ := parseAliasTarget goc p in
      let* _ := parseGenericInstantiation goc p in
      parseFields cfg goc p
  end.

(** *** Constant blocks *)

(** [strconv.Atoi] on decimal strings with an optional sign (values
    beyond 64 bits are out of range, an error). *)
Definition digitVal (c : ascii) : option Z :=
  let n := nat_of_ascii c in
  if (48 <=? n)%nat && (n <=? 57)%nat then Some (Z.of_nat (n - 48)) else None.

Fixpoint digitsVal (cs : list ascii) (acc : Z) : option Z :=
  match cs with
  | [] => Some acc
  | c :: r => match digitVal c with Some d => digitsVal r (acc * 10 + d) | None => None end
  end.

Definition inInt64 (z : Z) : bool := (- 2 ^ 63 <=? z)%Z && (z <? 2 ^ 63)%Z.

Definition Atoi (s : string) : option Z :=
  let r :=
    match list_ascii_of_string s with
    | "+"%char :: (_ :: _) as ds => digitsVal ds 0
    | "-"%char :: (_ :: _) as ds => option_map Z.opp (digitsVal ds 0)
    | (_ :: _) as ds => digitsVal ds 0
    | [] => None
    end in
  match r with Some z => if inInt64 z then Some z else None | None => None end.

(** Go's 64-bit [int] arithmetic. *)
Definition wrap64 (z : Z) : Z := (Z.modulo (z + 2 ^ 63) (2 ^ 64) - 2 ^ 63)%Z.

(** [pr.evaluateIotaExpression(exprStr, iotaValue)]. *)
Definition evaluateIotaExpression (exprStr : string) (iotaValue : Z) : ConstValue :=
  if String.eqb exprStr "iota" then CInt iotaValue
  else if Contains exprStr "iota" then
    match SplitChar exprStr " "%char with
    | [p0; operator; operandStr] =>
        if String.eqb p0 "iota" then
          match Atoi operandStr with
          | Some operand =>
              if String.eqb operator "+" then CInt (wrap64 (iotaValue + operand))
              else if String.eqb operator "-" then CInt (wrap64 (iotaValue - operand))
              else if String.eqb operator "*" then CInt (wrap64 (iotaValue * operand))
              else if String.eqb operator "/" then
                (if (operand =? 0)%Z then CInt iotaValue else CInt (Z.quot iotaValue operand))
              else CInt iotaValue
          | None => CInt iotaValue
          end
        else CInt iotaValue
    | _ => CInt iotaValue
    end
  else CStr exprStr.

(** [pr.exprToString(expr)]. *)
Fixpoint exprToString (e : Expr) : string :=
  match e with
  | Ident n => n
  | BasicLit _ v => v
  | BinaryExpr x op y => exprToString x ++ " " ++ op ++ " " ++ exprToString y
  | ParenExpr x => "(" ++ exprToString x ++ ")"
  | UnaryExpr op x => op ++ exprToString x
  | _ => "complex_expr"
  end.

(** [pr.extractConstValue(expr)] on a non-nil expression
    ([evaluateBinaryExpr] returns [exprToString] on both of its paths). *)
Definition extractConstValue (e : Expr) : ConstValue :=
  match e with
  | BasicLit STRING v =>
      if (2 <=? String.length v)%nat
      then CStr (String.substring 1 (String.length v - 2) v) else CStr v
  | BasicLit _ v => CStr v
  | Ident n => CStr n
  | BinaryExpr _ _ _ => CStr (exprToString e)
  | _ => CStr (exprToString e)
  end.

(** [pr.resolveTypeName(typeExpr, pkg, file)]. *)
Definition resolveTypeName (e : Expr) (pkg : Package) (file : option File) : string :=
  match e with
  | Ident n => if IsBasicType n then n else qualify pkg n
  | SelectorExpr x s => ResolvePackagePathFromImports x pkg file ++ "." ++ s
  | _ => EmptyString
  end.

(** The loop variables of [AddConstBlock]. *)
Record ConstScan := mkConstScan {
  currentTypeName : string;
  currentTypeInfo : option ptr;
  iotaValue : Z;
  lastIotaExpr : string
}.

(** The computed value of the [i]-th name of a spec, and the new
    [lastIotaExpr]. *)
Definition constValueAt (vs : ValueSpec) (i : nat) (cs : ConstScan) : ConstValue * string :=
  match nth_error (vsValues vs) i with
  | Some ve =>
      match extractConstValue ve with
      | CStr s =>
          if String.eqb s "iota" || Contains s "iota"
          then (evaluateIotaExpression s (iotaValue cs), s)
          else (CStr s, lastIotaExpr cs)
      | v => (v, lastIotaExpr cs)
      end
  | None =>
      if negb (String.eqb (lastIotaExpr cs) EmptyString)
      then (evaluateIotaExpression (lastIotaExpr cs) (iotaValue cs), lastIotaExpr cs)
      else (evaluateIotaExpression "iota" (iotaValue cs), lastIotaExpr cs)
  end.

(** The loop over [valueSpec.Names]. *)
Fixpoint constNames (gd : GenDecl) (vs : ValueSpec) (names : list string) (i : nat) (cs : ConstScan)
    : M ConstScan :=
  match names with
  | [] => ret cs
  | name :: r =>
      if String.eqb (currentTypeName cs) EmptyString then constNames gd vs r (S i) cs else
      let '(computedValue, last') := constValueAt vs i cs in
      let* tin := match currentTypeInfo cs with Some q => load q | None => fail nilDeref end in
      let* ann := parseAnnotationsM [vsDoc vs; vsComment vs; gdDoc gd] in
      let* _ := appendConst (currentTypeName cs)
                  (mkEnumValue name (determineVisibility name) computedValue (currentTypeInfo cs)
                               (CannonicalName tin) ann) in
      constNames gd vs r (S i) (mkConstScan (currentTypeName cs) (currentTypeInfo cs) (iotaValue cs + 1) last')
  end.

(** [pr.shouldScanEnums(ctx)]. *)
Definition shouldScanEnums (cfg : ScanOptions) : bool := scanEnabled (soEnums cfg).

(** The loop over [genDecl.Specs] of [AddConstBlock]. *)
Fixpoint constSpecs (cfg : ScanOptions) (fuel : nat) (gd : GenDecl) (file : File) (pkg : Package)
    (specs : list Spec) (cs : ConstScan) : M unit :=
  match specs with
  | [] => ret tt
  | SValueSpec vs :: r =>
      let* cs1 :=
        match vsType vs with
        | Some t =>
            let* ti := GetOrCreateTypeInfo cfg fuel t EmptyString
                         (Some [vsDoc vs; vsComment vs; gdDoc gd]) (Some file) pkg None in
            ret (mkConstScan (resolveTypeName t pkg (Some file)) ti 0 EmptyString)
        | None => ret cs
        end in
      let* cs2 := constNames gd vs (vsNames vs) 0 cs1 in
      constSpecs cfg fuel gd file pkg r cs2
  | _ :: r => constSpecs cfg fuel gd file pkg r cs
  end.

(** [pr.AddConstBlock(ctx, genDecl, file, pkg)]. *)
Definition AddConstBlock (cfg : ScanOptions) (fuel : nat) (gd : GenDecl) (file : File) (pkg : Package)
    : M unit :=
  if negb (shouldScanEnums cfg) then ret tt else
  constSpecs cfg fuel gd file pkg (gdSpecs gd) (mkConstScan EmptyString None 0 EmptyString).

(** *** Functions *)

(** [pr.shouldScanFunctions(ctx)]. *)
Definition shouldScanFunctions (cfg : ScanOptions) : bool := scanEnabled (soFunctions cfg).

(** [pr.AddFuncDecl(ctx, funcDecl, file, pkg)]. *)
Definition AddFuncDecl (cfg : ScanOptions) (fuel : nat) (fd : FuncDecl) (file : File) (pkg : Package)
    : M unit :=
  if negb (shouldScanFunctions cfg) then ret tt else
  let canonicalName := qualify pkg (fdName fd) in
  let goc := GetOrCreateTypeInfo cfg fuel in
  let* ann := parseAnnotationsM [fdDoc fd] in
  let* parms := parseParamList goc false (fdParams fd) (Some file) pkg canonicalName in
  let* rets := parseResultList goc (fdResults fd) (Some file) pkg canonicalName in
  let fi := mkFunctionInfo (fdName fd) ann parms rets (determineVisibility (fdName fd)) in
  let* ann2 := parseAnnotationsM [fdDoc fd] in
  let ti := mkTypeInfo TypeKindFunction (determineVisibility (fdName fd)) canonicalName (fdName fd)
              None None pkg ann2 false false None false None EmptyString [] [] [] None None (Some fi)
              [] [] [] emptyUsage None None None in
  let* p := alloc ti in
  setType canonicalName p.

(** [pr.detectEnums(ctx)], the map walked in the order of [map_to_list]. *)
Definition detectEnums : M unit :=
  fun st =>
    forM_ (map_to_list (ConstsByType st)) (fun kv =>
      match ctxTypes st !! kv.1 with
      | Some p => modify p (fun t => set_EnumValues kv.2 (set_Kind TypeKindEnum t))
      | None => ret tt
      end) st.

(** The declaration walk of [parsePackageNormalMode] followed by
    [detectEnums]. *)
Definition parsePackageNormalMode (cfg : ScanOptions) (fuel : nat) (pkg : Package) (files : list File)
    : M unit :=
  let* _ := forM_ files (fun file =>
    forM_ (fDecls file) (fun d =>
      match d with
      | DGen gd =>
          match gdTok gd with
          | CONST => AddConstBlock cfg fuel gd file pkg
          | _ => forM_ (gdSpecs gd) (fun s =>
                   match s with
                   | STypeSpec ts => AddTypeSpec cfg fuel ts gd file pkg
                   | _ => ret tt
                   end)
          end
      | DFunc fd =>
          match fdRecv fd with
          | None => AddFuncDecl cfg fuel fd file pkg
          | Some _ => ret tt
          end
      end)) in
  detectEnums.

End Registry.

(* ------------------------------------------------------------------ *)
(** ** The referenced scan mode of the orchestrator ([parser] package) *)

Module Orchestrator.

Import Annotations Types.


Record FunctionInfo := mkFuncInfo {
  foParams : list Expr;
  foResults : list Expr;
  foAnnotations : list Annotation;
  foStatementComments : list (list Annotation)
}.










Section Referenced.

(** [extractAllTypeNames], the splitting of a [schema] parameter into the
    type names it mentions. *)
Variable extractAllTypeNames : string -> list string.












End Referenced.

End Orchestrator.

(* ------------------------------------------------------------------ *)
(** ** Properties and inputs the theorems below are stated with *)

Module Props.

Import Annotations Types Registry.

(** *** Annotation inputs *)


(** [@schema(title:"Product", readonly, description:"A product")]. *)
Definition schemaLine : string :=
  "@schema(title:" ++ DQ ++ "Product" ++ DQ ++ ", readonly, description:" ++ DQ ++ "A product" ++ DQ ++ ")".

Definition schemaParams : gmap string string :=
  <["title" := "Product"]> (<["readonly" := "true"]> (<["description" := "A product"]> ∅)).


(** *** Declarations used as inputs *)

Definition allScan : ScanOptions := mkScanOptions "all" "all" "all" "all" "all".

Definition pkgM : Package := mkPackage "m" "m" [].

Definition noDoc : CommentGroup := Some [].

Definition finalState (r : Failure + (unit * State)) : option State :=
  match r with inr (_, st) => Some st | inl _ => None end.

(** *** Constant blocks *)

(** A member [nm] on a line of its own, with no type and no value. *)
Definition omittedSpec (nm : string) : Spec := SValueSpec (mkValueSpec noDoc [nm] None [] noDoc).

(** [const (first tname = lit; rest...)]. *)
Definition literalBlock (tname lit first : string) (rest : list string) : GenDecl :=
  mkGenDecl noDoc CONST
    (SValueSpec (mkValueSpec noDoc [first] (Some (Ident tname)) [BasicLit INT lit] noDoc)
     :: map omittedSpec rest).


(** [type Color int] and [const (A Color = 5; B; C)]. *)
Definition colorSpec : TypeSpec := mkTypeSpec "Color" noDoc false None (Ident "int").

Definition colorDecl : GenDecl := mkGenDecl noDoc TYPE [STypeSpec colorSpec].

Definition colorFile : File :=
  mkFile [] [DGen colorDecl; DGen (literalBlock "Color" "5" "A" ["B"; "C"])].


(** *** A self-referential struct *)

(** [type Node struct { Next *Node }], every comment group of the
    declaration being [doc]. *)
Definition nodeSpec (doc : CommentGroup) : TypeSpec :=
  mkTypeSpec "Node" doc false None (StructType [mkField ["Next"] (StarExpr (Ident "Node")) doc doc]).

Definition nodeFile (doc : CommentGroup) : File :=
  mkFile [] [DGen (mkGenDecl doc TYPE [STypeSpec (nodeSpec doc)])].

(** The registry entry of [Node], the type references of its fields and
    the number of nodes allocated. *)
Definition nodeSummary (st : State) : option ptr * option (list (option ptr)) * ptr :=
  (ctxTypes st !! "m.Node",
   option_map (fun t => map (fun f => teTypeInfo (fiTE f)) (Fields t)) (Heap st !! 0%nat),
   Next st).

(** *** A reference chain [S -> A -> B] *)


(** *** The usage flag *)

(** The flag is set exactly when there is an embedded edge and no other edge. *)
Definition usageFlagOK (u : UsageInfo) : Prop :=
  IsOnlyEmbedded u = true <-> EmbeddedIn u <> [] /\ ReferencedIn u = [].

Definition heapFlagsOK (st : State) : Prop :=
  map_Forall (fun _ t => usageFlagOK (TIUsageInfo t)) (Heap st).

(** Two nodes, at 0 and 1, with no usage yet. *)
Definition usageState : State :=
  let ti n := baseTypeInfo (qualify pkgM n) n None None pkgM [] in
  mkState ∅ (<[0%nat := ti "A"]> (<[1%nat := ti "B"]> ∅)) 2 ∅.

(** The four edge-recording operations. *)
Inductive UsageOp :=
| OpEmbedded (q parent : ptr)
| OpField (q parent : ptr) (fieldName : string)
| OpParameter (q : ptr) (functionType paramName : string)
| OpReturn (q : ptr) (functionType returnName : string).

Definition runUsageOp (op : UsageOp) : M unit :=
  match op with
  | OpEmbedded q parent => trackEmbeddedUsage q parent
  | OpField q parent n => trackFieldUsage q parent n
  | OpParameter q f n => trackParameterUsage q f n
  | OpReturn q f n => trackReturnUsage q f n
  end.

Definition usageTarget (op : UsageOp) : ptr :=
  match op with
  | OpEmbedded q _ | OpField q _ _ | OpParameter q _ _ | OpReturn q _ _ => q
  end.

(** *** A generic declaration and its instantiation *)

(** A type parameter [n any]. *)
Definition tparam (n : string) : Field := mkField [n] (Ident "any") noDoc noDoc.

(** [type Node[T any, P any] struct { Val T; Next *Node[T, P] }]. *)
Definition genericNodeSpec : TypeSpec :=
  mkTypeSpec "Node" noDoc false (Some [tparam "T"; tparam "P"])
    (StructType [mkField ["Val"] (Ident "T") noDoc noDoc;
                 mkField ["Next"] (StarExpr (IndexListExpr (Ident "Node") [Ident "T"; Ident "P"])) noDoc noDoc]).

(** [type Character struct {}]. *)
Definition characterSpec : TypeSpec := mkTypeSpec "Character" noDoc false None (StructType []).

(** [type Inst Node[Character, int]]. *)
Definition instSpec : TypeSpec :=
  mkTypeSpec "Inst" noDoc false None (IndexListExpr (Ident "Node") [Ident "Character"; Ident "int"]).

Definition genericDecl : GenDecl :=
  mkGenDecl noDoc TYPE [STypeSpec genericNodeSpec; STypeSpec characterSpec; STypeSpec instSpec].

Definition genericFile : File := mkFile [] [DGen genericDecl].






(** *** Visibility values *)

Definition visOK (v : Visibility) : Prop := v <> VisibilityProtected.

Definition teOK (te : TypedElement) : Prop := visOK (teVisibility te).

Definition fnOK (fn : FunctionInfo) : Prop :=
  visOK (fnVisibility fn) /\ Forall teOK (fnParms fn) /\ Forall teOK (fnReturns fn).

Definition fiOK (fi : FieldInfo) : Prop := visOK (fiVisibility fi) /\ teOK (fiTE fi).

Definition evOK (ev : EnumValue) : Prop := visOK (evVisibility ev).

(** No visibility of a node, of its fields, methods, function signature
    (parameters and results included) or enum values is [protected]. *)
Definition tiOK (t : TypeInfo) : Prop :=
  visOK (TIVisibility t) /\ Forall fiOK (Fields t) /\ Forall fnOK (Methods t) /\
  match FunctionSig t with Some f => fnOK f | None => True end /\ Forall evOK (EnumValues t).

Definition NoProtected (st : State) : Prop :=
  map_Forall (fun _ t => tiOK t) (Heap st) /\ map_Forall (fun _ evs => Forall evOK evs) (ConstsByType st).

(** A successful run of [m] from a state with no [protected] visibility
    ends in such a state, with a result satisfying [Q]. *)
Definition keeps {A} (Q : A -> Prop) (m : M A) : Prop :=
  forall st a st', NoProtected st -> m st = inr (a, st') -> NoProtected st' /\ Q a.

(** The state after scanning [colorFile] and [genericFile]. *)
Definition visState : State :=
  default emptyState (finalState (parsePackageNormalMode allScan 10 pkgM [colorFile; genericFile] emptyState)).

End Props.

(* ------------------------------------------------------------------ *)
(** ** Struct tags, schema type names and declaration shapes *)

Module StructTags.

Definition BQ : ascii := "096"%char.
Definition bsl : ascii := "092"%char.

(** [strings.ReplaceAll(s, old, new)] for a two-byte [old = a b]: the
    occurrences are replaced left to right, without overlap. *)
Fixpoint replaceAll2 (a b : ascii) (new s : string) : string :=
  match s with
  | String c (String d r as t) =>
      if Ascii.eqb c a && Ascii.eqb d b then new ++ replaceAll2 a b new r
      else String c (replaceAll2 a b new t)
  | _ => s
  end.

(** The loop [for i < len(s) && s[i] == ' ' { i++ }; s = s[i:]]. *)
Definition skipSpaces (s : string) : string := trimLeftBy (fun c => Ascii.eqb c " "%char) s.

(** The scan of a quoted value: [s] is the tag after its opening quote;
    the index (in [s]) of the closing quote, a backslash skipping the
    byte after it; [None] when the loop runs off the end. *)
Fixpoint scanQuoted (s : string) : option nat :=
  match s with
  | EmptyString => None
  | String c r =>
      if Ascii.eqb c dq then Some 0
      else if Ascii.eqb c bsl then
        match r with
        | EmptyString => None
        | String _ r' => option_map (fun i => S (S i)) (scanQuoted r')
        end
      else option_map S (scanQuoted r)
  end.

(** The unescaping of a value: a backslash and a double quote become a
    double quote, then two backslashes become one. *)
Definition unescapeTag (v : string) : string :=
  replaceAll2 bsl bsl (String bsl EmptyString) (replaceAll2 bsl dq DQ v).

(** The loop over the remaining tag string; every round that goes on consumes at
    least the colon and the two quotes, so [String.length s + 1] rounds
    are enough. *)
Fixpoint tagLoop (fuel : nat) (s0 : string) (tags : gmap string string) : gmap string string :=
  match fuel with
  | 0 => tags
  | S f =>
      match s0 with
      | EmptyString => tags
      | _ =>
        let s1 := skipSpaces s0 in
        match s1 with
        | EmptyString => tags
        | _ =>
          match IndexChar s1 ":"%char with
          | None => tags
          | Some i =>
              let key := substring 0 i s1 in
              let s2 := skipSpaces (substring (S i) (String.length s1 - S i) s1) in
              match s2 with
              | String c r =>
                  if Ascii.eqb c dq then
                    match scanQuoted r with
                    | Some j =>
                        let value := substring 0 j r in
                        let s3 := substring (S j) (String.length r - S j) r in
                        tagLoop f s3 (<[key := unescapeTag value]> tags)
                    | None => tags
                    end
                  else tags
              | EmptyString => tags
              end
          end
        end
      end
  end.

(** [parseStructTags(tagString)]. *)
Definition parseStructTags (tag0 : string) : gmap string string :=
  let tag :=
    match list_ascii_of_string tag0 with
    | c :: (_ :: _) as r =>
        if Ascii.eqb c BQ && Ascii.eqb (List.last r c) BQ
        then substring 1 (String.length tag0 - 2) tag0 else tag0
    | _ => tag0
    end in
  tagLoop (S (String.length tag)) tag ∅.

(** Escaping a value for a tag literal: a backslash or a double quote
    gets a backslash in front. *)
Fixpoint escapeTag (v : string) : string :=
  match v with
  | EmptyString => EmptyString
  | String c r =>
      if Ascii.eqb c bsl then String bsl (String bsl (escapeTag r))
      else if Ascii.eqb c dq then String bsl (String dq (escapeTag r))
      else String c (escapeTag r)
  end.

(** One pair [key:], the escaped value in double quotes; and the pairs
    separated by spaces. *)
Definition renderPair (kv : string * string) : string := kv.1 ++ ":" ++ DQ ++ escapeTag kv.2 ++ DQ.

Fixpoint renderPairs (kvs : list (string * string)) : string :=
  match kvs with
  | [] => EmptyString
  | [kv] => renderPair kv
  | kv :: r => renderPair kv ++ " " ++ renderPairs r
  end.

Definition renderTag (kvs : list (string * string)) : string :=
  String BQ (renderPairs kvs ++ String BQ EmptyString).


(** The value after the first pass: only the backslashes are doubled. *)
Fixpoint escapeBsl (v : string) : string :=
  match v with
  | EmptyString => EmptyString
  | String c r => if Ascii.eqb c bsl then String bsl (String bsl (escapeBsl r)) else String c (escapeBsl r)
  end.

(** A key the loop reads back: no colon, no leading space. *)
Definition keyOK (k : string) : bool :=
  negb (existsb (Ascii.eqb ":"%char) (list_ascii_of_string k)) &&
  match k with String c _ => negb (Ascii.eqb c " "%char) | EmptyString => true end.

Definition insertAll (kvs : list (string * string)) (m : gmap string string) : gmap string string :=
  fold_left (fun m kv => <[kv.1 := kv.2]> m) kvs m.

Definition stripBackticks (tag0 : string) : string :=
  match list_ascii_of_string tag0 with
  | c :: (_ :: _) as r =>
      if Ascii.eqb c BQ && Ascii.eqb (List.last r c) BQ
      then substring 1 (String.length tag0 - 2) tag0 else tag0
  | _ => tag0
  end.

End StructTags.

Module StringSearch.

(** Whether [c] occurs in [s]. *)
Definition charIn (c : ascii) (s : string) : bool :=
  existsb (fun d => Ascii.eqb d c) (list_ascii_of_string s).

End StringSearch.

Module SchemaNames.

(** The first step of [extractAllTypeNames]: a leading [[]] is removed; a
    schema in brackets without a comma loses its brackets when its last
    [']'] is its last byte. *)
Definition stripArrayBrackets (schema : string) : string :=
  if HasPrefix schema "[]" then TrimPrefix schema "[]"
  else if HasPrefix schema "[" && negb (Contains schema ",") then
    match LastIndexChar schema "]"%char with
    | Some lastBracket =>
        if Nat.eqb lastBracket (String.length schema - 1)
        then TrimSuffix (TrimPrefix schema "[") "]" else schema
    | None => schema
    end
  else schema.

(** [extractAllTypeNames] (orchestrator.go): the type names of a [schema]
    parameter, generic arguments included.  Each recursive call is on an
    argument strictly shorter than [schema], so [S (length schema)] rounds of
    fuel never run out. *)
Fixpoint extractAllTypeNamesF (fuel : nat) (schema0 : string) : list string :=
  match fuel with
  | 0 => []
  | S f =>
      let schema := TrimSuffix (stripArrayBrackets schema0) "!" in
      if Contains schema "[" && Contains schema "]" then
        match IndexChar schema "["%char, LastIndexChar schema "]"%char with
        | Some openBracket, Some closeBracket =>
            if (0 <? openBracket)%nat && (openBracket <? closeBracket)%nat then
              let baseType := TrimSpace (substring 0 openBracket schema) in
              let typeArgs := substring (S openBracket) (closeBracket - S openBracket) schema in
              let args := SplitChar typeArgs ","%char in
              baseType :: flat_map (fun arg0 =>
                let arg := TrimSuffix (TrimSpace arg0) "!" in
                if String.eqb arg EmptyString then [] else extractAllTypeNamesF f arg) args
            else [schema]
        | _, _ => [schema]
        end
      else [schema]
  end.

Definition extractAllTypeNames (schema : string) : list string :=
  extractAllTypeNamesF (S (String.length schema)) schema.

End SchemaNames.

Module SchemaShapes.

Import SchemaNames.

(** A plain type name: not empty, no white space, brackets, comma or bang. *)
Definition nameChar (c : ascii) : bool :=
  negb (isSpace c) && negb (Ascii.eqb c "["%char) && negb (Ascii.eqb c "]"%char) &&
  negb (Ascii.eqb c ","%char) && negb (Ascii.eqb c "!"%char).

Definition nameOK (a : string) : bool :=
  negb (String.eqb a EmptyString) && forallb nameChar (list_ascii_of_string a).



(** The treatment of one argument inside the brackets. *)
Definition argNames (f : nat) (arg0 : string) : list string :=
  let arg := TrimSuffix (TrimSpace arg0) "!" in
  if String.eqb arg EmptyString then [] else extractAllTypeNamesF f arg.




End SchemaShapes.

Module DeclShapes.

Import Annotations Types Registry Props.




Definition markEnum (vs : list EnumValue) (t : TypeInfo) : TypeInfo :=
  set_EnumValues vs (set_Kind TypeKindEnum t).

(** The heap after walking the entries [l] of [ConstsByType] against the
    registry [T]. *)
Definition detectHeap (T : gmap string ptr) (l : list (string * list EnumValue)) (h : gmap ptr TypeInfo)
    : gmap ptr TypeInfo :=
  fold_left (fun h kv => match T !! kv.1 with Some p => alter (markEnum kv.2) p h | None => h end) l h.


End DeclShapes.

Module Namespaces.

Import Annotations Types.

(** [unicode.ToLower] on an ASCII byte. *)
Definition lowerChar (c : ascii) : ascii :=
  let n := nat_of_ascii c in
  if ((65 <=? n) && (n <=? 90))%nat then ascii_of_nat (n + 32) else c.

(** [strings.ToLower] (ASCII text). *)
Definition ToLower (s : string) : string :=
  string_of_list_ascii (map lowerChar (list_ascii_of_string s)).






End Namespaces.

(* ------------------------------------------------------------------ *)
(** ** Include-type classification of packages ([types] package) *)

Module IncludeTypes.

(** [os.IsPathSeparator] on Unix. *)
Definition IsPathSeparator (c : ascii) : bool := Ascii.eqb c "/"%char.

(** The backtracking loop of the [..] case of [filepath.Clean]:
    [out.w--; for out.w > dotdot && !IsPathSeparator(out.index(out.w)) { out.w-- }].
    The output buffer is kept reversed ([out.w] is its length) and [dropped]
    is the byte at [out.index(out.w)], the one just removed. *)
Fixpoint cleanBack (dotdot : nat) (rout : list ascii) (dropped : ascii) : list ascii :=
  match rout with
  | [] => []
  | c :: rest =>
      if (dotdot <? length rout)%nat && negb (IsPathSeparator dropped)
      then cleanBack dotdot rest c else rout
  end.

(** The main loop of [filepath.Clean] (Unix), over [path[r:]].  [copying]
    says that the inner [for ; r < n && !IsPathSeparator(path[r]); r++]
    loop of the default case is running; when it stops on a separator, that
    byte is handled by the outer [switch], as in the source. *)
Fixpoint cleanLoop (rooted : bool) (copying : bool) (dotdot : nat) (rout : list ascii)
    (rest : list ascii) : list ascii :=
  match rest with
  | [] => rout
  | c :: rest' =>
      if copying && negb (IsPathSeparator c) then
        cleanLoop rooted true dotdot (c :: rout) rest'
      else if IsPathSeparator c then
        (* empty path element *)
        cleanLoop rooted false dotdot rout rest'
      else if Ascii.eqb c "."%char &&
              match rest' with [] => true | d :: _ => IsPathSeparator d end then
        (* . element *)
        cleanLoop rooted false dotdot rout rest'
      else
        match rest' with
        | d :: rest'' =>
            if Ascii.eqb c "."%char && Ascii.eqb d "."%char &&
               match rest'' with [] => true | e :: _ => IsPathSeparator e end then
              (* .. element *)
              if (dotdot <? length rout)%nat then
                let rout' := match rout with [] => [] | x :: r => cleanBack dotdot r x end in
                cleanLoop rooted false dotdot rout' rest''
              else if negb rooted then
                let rout1 := if (0 <? length rout)%nat then "/"%char :: rout else rout in
                let rout2 := "."%char :: "."%char :: rout1 in
                cleanLoop rooted false (length rout2) rout2 rest''
              else cleanLoop rooted false dotdot rout rest''
            else
              let rout1 := if (rooted && negb (length rout =? 1)%nat) ||
                              (negb rooted && negb (length rout =? 0)%nat)
                           then "/"%char :: rout else rout in
              cleanLoop rooted true dotdot (c :: rout1) rest'
        | [] =>
            let rout1 := if (rooted && negb (length rout =? 1)%nat) ||
                            (negb rooted && negb (length rout =? 0)%nat)
                         then "/"%char :: rout else rout in
            cleanLoop rooted true dotdot (c :: rout1) rest'
        end
  end.

(** [filepath.Clean] on Unix (no volume names; [FromSlash] is the identity). *)
Definition Clean (path : string) : string :=
  match list_ascii_of_string path with
  | [] => "."
  | c :: _ =>
      let rooted := IsPathSeparator c in
      let rout0 := if rooted then ["/"%char] else [] in
      let dotdot0 := if rooted then 1%nat else 0%nat in
      let rout := cleanLoop rooted false dotdot0 rout0 (list_ascii_of_string path) in
      let rout' := match rout with [] => ["."%char] | _ => rout end in
      string_of_list_ascii (rev rout')
  end.

(** [filepath.Dir] on Unix: everything up to the last separator, cleaned. *)
Definition Dir (path : string) : string :=
  match LastIndexChar path "/"%char with
  | Some i => Clean (substring 0 (S i) path)
  | None => Clean ""
  end.

Inductive IncludeType := IncludeTypeScanned | IncludeTypeLocal | IncludeTypeExternal | IncludeTypeStd.

(** The fields of [config.Config] and [ProcessContext] the classification reads;
    [option] stands for a possibly nil pointer. *)
Record ScanningConfig := mkScanningConfig { Packages : list string }.
Record Config := mkConfig { Scanning : ScanningConfig }.
Record ProcessContext := mkProcessContext { PCConfig : option Config; ModulePath : string }.

Definition scanPatternMatches (pkgPath pattern : string) : bool :=
  if HasSuffix pattern "*.go" then
    let dir := TrimPrefix (TrimPrefix (Dir pattern) "./") "/" in
    HasSuffix pkgPath ("/" ++ dir) || HasSuffix pkgPath dir
  else HasPrefix pkgPath pattern.

Definition isInScannedPackages (pkgPath : string) (patterns : list string) : bool :=
  if String.eqb pkgPath "" then false
  else existsb (scanPatternMatches pkgPath) patterns.

Definition isSameModule (pkgPath modulePath : string) : bool :=
  if String.eqb pkgPath "" || String.eqb modulePath "" then false
  else HasPrefix pkgPath modulePath.

Definition isStandardLibrary (pkgPath : string) : bool :=
  if String.eqb pkgPath "" then false
  else negb (Contains pkgPath ".") || HasPrefix pkgPath "golang.org/x/" || HasPrefix pkgPath "std/".

Definition classifyIncludeType (pkgPath : string) (ctx : option ProcessContext) : IncludeType :=
  match ctx with
  | None => IncludeTypeExternal
  | Some c =>
      match PCConfig c with
      | None => IncludeTypeExternal
      | Some cfg =>
          if String.eqb pkgPath "" then IncludeTypeExternal
          else if isInScannedPackages pkgPath (Packages (Scanning cfg)) then IncludeTypeScanned
          else if isSameModule pkgPath (ModulePath c) then IncludeTypeLocal
          else if isStandardLibrary pkgPath then IncludeTypeStd
          else IncludeTypeExternal
      end
  end.

End IncludeTypes.


(* ------------------------------------------------------------------ *)
(** * Properties *)

(** ** The annotation parser *)

Module AnnotationsFacts.

Import Annotations.

Lemma length_list_ascii (s : string) : length (list_ascii_of_string s) = String.length s.
Proof. induction s as [|c s IH]; simpl; auto. Qed.

Lemma IndexChar_lt (s : string) (c : ascii) (i : nat) :
  IndexChar s c = Some i -> (i < String.length s)%nat.
Proof.
  revert i; induction s as [|d s IH]; intros i H; simpl in H; [discriminate|].
  destruct (Ascii.eqb d c).
  - injection H as <-; simpl; lia.
  - destruct (IndexChar s c) as [j|] eqn:E; simpl in H; [|discriminate].
    injection H as <-; specialize (IH j eq_refl); simpl; lia.
Qed.

Lemma LastIndexChar_lt (s : string) (c : ascii) (i : nat) :
  LastIndexChar s c = Some i -> (i < String.length s)%nat.
Proof.
  revert i; induction s as [|d s IH]; intros i H; simpl in H; [discriminate|].
  destruct (LastIndexChar s c) as [j|] eqn:E.
  - injection H as <-; specialize (IH j eq_refl); simpl; lia.
  - destruct (Ascii.eqb d c); [injection H as <-; simpl; lia | discriminate].
Qed.

Lemma findSepAux_lt (part : string) (cs : list ascii) (i j : nat) :
  findSepAux part cs i = Some j -> (j < i + length cs)%nat.
Proof.
  revert i; induction cs as [|ch r IH]; intros i H; simpl in H; [discriminate|].
  destruct (isSep ch && negb (isInQuotes part i)).
  - injection H as <-; simpl; lia.
  - specialize (IH (S i) H); simpl; lia.
Qed.

Lemma findSep_lt (part : string) (j : nat) : findSep part = Some j -> (j < String.length part)%nat.
Proof.
  unfold findSep; intros H; apply findSepAux_lt in H; rewrite length_list_ascii in H; lia.
Qed.

Lemma slice_ok (s : string) (lo hi : nat) :
  (lo <= hi)%nat -> (hi <= String.length s)%nat -> slice s lo hi = Some (substring lo (hi - lo) s).
Proof.
  intros H1 H2; unfold slice.
  apply Nat.leb_le in H1; apply Nat.leb_le in H2; rewrite H1, H2; reflexivity.
Qed.

Lemma sliceFrom_ok (s : string) (lo : nat) :
  (lo <= String.length s)%nat -> sliceFrom s lo = Some (substring lo (String.length s - lo) s).
Proof. intros H; unfold sliceFrom; apply slice_ok; lia. Qed.

Lemma ppPart_total (acc : gmap string string * nat) (part : string) :
  exists r, ppPart acc part = Some r.
Proof.
  destruct acc as [params pidx]; unfold ppPart.
  destruct (findSep (TrimSpace part)) as [i|] eqn:E.
  - apply findSep_lt in E.
    rewrite (slice_ok _ 0 i) by lia; simpl.
    rewrite sliceFrom_ok by lia; simpl; eauto.
  - destruct (_ && _); [eauto|].
    destruct (pidx =? 0)%nat; eauto.
Qed.

Lemma pssPart_total (params : gmap string string) (part : string) :
  exists r, pssPart params part = Some r.
Proof.
  unfold pssPart.
  destruct (String.eqb (TrimSpace part) EmptyString); [eauto|].
  destruct (findSep (TrimSpace part)) as [i|] eqn:E; [|eauto].
  apply findSep_lt in E.
  rewrite (slice_ok _ 0 i) by lia; simpl.
  rewrite sliceFrom_ok by lia; simpl; eauto.
Qed.

Lemma foldPartsM_total {A} (f : A -> string -> option A) (acc : A) (ps : list string) :
  (forall a p, exists r, f a p = Some r) -> exists r, foldPartsM f acc ps = Some r.
Proof.
  intros Hf; revert acc; induction ps as [|p ps IH]; intros acc; simpl; [eauto|].
  destruct (Hf acc p) as [r Hr]; rewrite Hr; simpl; apply IH.
Qed.

Lemma parseParamsParentheses_total (s : string) : exists m, parseParamsParentheses s = Some m.
Proof.
  unfold parseParamsParentheses.
  destruct (foldPartsM_total ppPart (∅, 0%nat) (splitParenParts s) ppPart_total) as [r ->].
  simpl; eauto.
Qed.

Lemma parseParamsSpaceSeparated_total (ps : list string) :
  exists m, parseParamsSpaceSeparated ps = Some m.
Proof. apply foldPartsM_total, pssPart_total. Qed.

Lemma parseAnnotation_total (line : string) :
  exists a, parseAnnotation line = Some a /\ RawText a = line.
Proof.
  unfold parseAnnotation.
  destruct (IndexChar (TrimPrefix line "@") "("%char) as [pi|] eqn:E.
  - pose proof (IndexChar_lt _ _ _ E) as Hlt.
    rewrite (slice_ok _ 0 pi) by lia; simpl.
    rewrite sliceFrom_ok by lia; simpl.
    set (ps := substring (S pi) _ _).
    destruct (LastIndexChar ps ")"%char) as [ei|] eqn:E2.
    + pose proof (LastIndexChar_lt _ _ _ E2).
      rewrite (slice_ok _ 0 ei) by lia; simpl.
      destruct (parseParamsParentheses_total (substring 0 (ei - 0) ps)) as [m ->]; simpl; eauto.
    + simpl; destruct (parseParamsParentheses_total ps) as [m ->]; simpl; eauto.
  - destruct (splitAnnotationParts (TrimPrefix line "@")) as [|p0 rest]; [eauto|].
    destruct (1 <? length (p0 :: rest))%nat.
    + destruct (parseParamsSpaceSeparated_total rest) as [m ->]; simpl; eauto.
    + simpl; eauto.
Qed.

Lemma concatMapM_total {A B} (f : A -> option (list B)) (l : list A) :
  (forall x, In x l -> exists ys, f x = Some ys) -> exists ys, concatMapM f l = Some ys.
Proof.
  induction l as [|x l IH]; intros Hf; simpl; [eauto|].
  destruct (Hf x (or_introl eq_refl)) as [ys ->]; simpl.
  destruct IH as [zs ->]; [intros y Hy; apply Hf; right; exact Hy|]; simpl; eauto.
Qed.

Lemma annotationsOfLine_total (line : string) : exists anns, annotationsOfLine line = Some anns.
Proof.
  unfold annotationsOfLine.
  destruct (HasPrefix _ "@"); [|eauto].
  destruct (parseAnnotation_total (TrimSpace (TrimPrefix (TrimSpace line) "*"))) as [a [-> _]].
  simpl; eauto.
Qed.

Lemma annotationsOfComment_total (c : string) : exists anns, annotationsOfComment c = Some anns.
Proof. unfold annotationsOfComment; apply concatMapM_total; intros x _; apply annotationsOfLine_total. Qed.

(** Every group being non-nil, [ParseAnnotations] returns. *)
Lemma ParseAnnotations_total (groups : list (list string)) :
  exists anns, ParseAnnotations (map Some groups) = Some anns.
Proof.
  unfold ParseAnnotations; apply concatMapM_total.
  intros g Hg; apply in_map_iff in Hg as [cs [<- _]].
  apply concatMapM_total; intros c _; apply annotationsOfComment_total.
Qed.

End AnnotationsFacts.

(** ** Quoted values in the parenthesised parameter list *)

Module QuoteFacts.

Import Annotations AnnotationsFacts.

(** [String.append] is kept from unfolding by [simpl]; its two equations. *)
Lemma sapp_nil_l (b : string) : EmptyString ++ b = b.
Proof. reflexivity. Qed.

Lemma sapp_cons (x : ascii) (a b : string) : String x a ++ b = String x (a ++ b).
Proof. reflexivity. Qed.

Lemma sapp_assoc (a b c : string) : a ++ (b ++ c) = (a ++ b) ++ c.
Proof. induction a as [|x a IH]; [reflexivity|]. rewrite !sapp_cons; now rewrite IH. Qed.

Lemma sapp_nil_r (a : string) : a ++ EmptyString = a.
Proof. induction a as [|x a IH]; [reflexivity|]. rewrite sapp_cons; now rewrite IH. Qed.

Lemma slength_app (a b : string) : String.length (a ++ b) = (String.length a + String.length b)%nat.
Proof. induction a as [|x a IH]; [reflexivity|]. rewrite sapp_cons; simpl; now rewrite IH. Qed.

Lemma list_ascii_app (a b : string) :
  list_ascii_of_string (a ++ b) = app (list_ascii_of_string a) (list_ascii_of_string b).
Proof. induction a as [|x a IH]; [reflexivity|]. rewrite sapp_cons; simpl; now rewrite IH. Qed.


Lemma string_of_list_app (l1 l2 : list ascii) :
  string_of_list_ascii (app l1 l2) = string_of_list_ascii l1 ++ string_of_list_ascii l2.
Proof. induction l1 as [|x l1 IH]; [reflexivity|]. simpl; rewrite sapp_cons; now rewrite IH. Qed.

Lemma substring_prefix (a b : string) : substring 0 (String.length a) (a ++ b) = a.
Proof.
  induction a as [|x a IH]; [now destruct b|]. rewrite sapp_cons; simpl; now rewrite IH.
Qed.

Lemma substring_skip (a b : string) (m n : nat) :
  substring (String.length a + m) n (a ++ b) = substring m n b.
Proof. induction a as [|x a IH]; [reflexivity|]. rewrite sapp_cons; simpl; exact IH. Qed.

Lemma substring_all (s : string) : substring 0 (String.length s) s = s.
Proof. induction s as [|x s IH]; simpl; [reflexivity | now rewrite IH]. Qed.

(** *** Trimming *)





Lemma trimLeftBy_cons_keep (p : ascii -> bool) (c : ascii) (r : string) :
  p c = false -> trimLeftBy p (String c r) = String c r.
Proof. intros H; simpl; now rewrite H. Qed.





(** *** Characters *)


(** *** The split loop *)












(** *** The scan of [key:"value"] *)

Section KeyValue.
Set Default Proof Using "All".

Variables k v : string.
Hypothesis Hk : k <> EmptyString.
Hypothesis Hflags : forallb flagChar (list_ascii_of_string k) = true.
Hypothesis Hnodq : ~ In dq (list_ascii_of_string v).
Hypothesis HT : Trim v quoteCutset = v.

Let w := DQ ++ v ++ DQ.
Let s := k ++ ":" ++ w.












End KeyValue.

End QuoteFacts.

(* ------------------------------------------------------------------ *)
(** ** Annotation parsing *)

Module AnnotationClaims.

Import Annotations AnnotationsFacts QuoteFacts Props.




(** C7: [@schema(title:"Product", readonly, description:"A product")]
    parses to the name [schema] and the parameters [title = Product],
    [readonly = true] and [description = A product]; the raw text is the
    line. *)
Theorem schema_annotation_parsed :
  parseAnnotation schemaLine = Some (mkAnnotation "schema" schemaParams schemaLine).
Proof. vm_compute; reflexivity. Qed.

(** C9: parsing a comment line always succeeds (there is no run-time
    failure on any text): [parseAnnotation] returns an annotation whose raw
    text is the line, and [ParseAnnotations] returns a list for any list of
    (non-nil) comment groups. *)
Theorem annotation_parsing_total :
  (forall line, exists a, parseAnnotation line = Some a /\ RawText a = line) /\
  (forall groups, exists anns, ParseAnnotations (map Some groups) = Some anns).
Proof. split; [exact parseAnnotation_total | exact ParseAnnotations_total]. Qed.

End AnnotationClaims.

(* ------------------------------------------------------------------ *)
(** ** Usage tracking *)

Module UsageFacts.

Import Types Registry Props.

Lemma UpdateUsageFlags_ok (u : UsageInfo) : usageFlagOK (UpdateUsageFlags u).
Proof.
  unfold usageFlagOK, UpdateUsageFlags; cbn.
  destruct (EmbeddedIn u) as [|e es], (ReferencedIn u) as [|r rs]; cbn;
    split; intros H; try discriminate; try (destruct H; congruence); auto.
Qed.

Lemma TIUsageInfo_set (u : UsageInfo) (t : TypeInfo) : TIUsageInfo (set_TIUsageInfo u t) = u.
Proof. destruct t; reflexivity. Qed.

Lemma emptyUsage_ok : usageFlagOK emptyUsage.
Proof. unfold usageFlagOK; cbn; split; [discriminate | intros [H _]; congruence]. Qed.

(** [modify] with a function that recomputes the flag. *)
Lemma modify_usage_ok (q : ptr) (g : TypeInfo -> UsageInfo) (st st' : State) (u : unit) :
  modify q (fun t => set_TIUsageInfo (UpdateUsageFlags (g t)) t) st = inr (u, st') ->
  (forall t, Heap st' !! q = Some t -> usageFlagOK (TIUsageInfo t)) /\ (heapFlagsOK st -> heapFlagsOK st').
Proof.
  unfold modify, bind, load, store; destruct (Heap st !! q) as [t0|] eqn:E; [|discriminate].
  intros H; inversion H; subst; clear H; cbn; split.
  - intros t; rewrite lookup_insert_eq; intros [= <-]; rewrite TIUsageInfo_set; apply UpdateUsageFlags_ok.
  - unfold heapFlagsOK; cbn; intros HF; apply map_Forall_insert_2; [|exact HF].
    rewrite TIUsageInfo_set; apply UpdateUsageFlags_ok.
Qed.

End UsageFacts.

Module UsageClaims.

Import Types Registry Props UsageFacts.

(** C8: every edge-recording operation ([trackEmbeddedUsage],
    [trackFieldUsage], [trackParameterUsage], [trackReturnUsage]) that
    completes leaves the node it records on with the flag [IsOnlyEmbedded]
    true exactly when it has an embedded edge and no other edge; and the
    property, holding for every node of the heap, keeps holding. *)
Theorem usage_flag_recomputed (op : UsageOp) (st st' : State) (u : unit) :
  runUsageOp op st = inr (u, st') ->
  (forall t, Heap st' !! usageTarget op = Some t -> usageFlagOK (TIUsageInfo t)) /\
  (heapFlagsOK st -> heapFlagsOK st').
Proof.
  destruct op as [q parent | q parent n | q f n | q f n]; cbn.
  - unfold trackEmbeddedUsage, bind at 1, load at 1.
    destruct (Heap st !! parent); [|discriminate]. apply modify_usage_ok.
  - unfold trackFieldUsage, bind at 1, load at 1.
    destruct (Heap st !! parent); [|discriminate]. apply modify_usage_ok.
  - apply modify_usage_ok.
  - apply modify_usage_ok.
Qed.

Lemma usage_flag_recomputed_witness :
  exists st', runUsageOp (OpField 0 1 "next") usageState = inr (tt, st') /\
    (forall t, Heap st' !! usageTarget (OpField 0 1 "next") = Some t -> usageFlagOK (TIUsageInfo t)) /\
    (heapFlagsOK usageState -> heapFlagsOK st').
Proof.
  eexists; split; [reflexivity|].
  eapply (usage_flag_recomputed (OpField 0 1 "next") usageState _ tt); reflexivity.
Defined.

End UsageClaims.

(* ------------------------------------------------------------------ *)
(** ** Constant blocks *)

Module ConstFacts.

Import Types Registry Props.



End ConstFacts.

Module ConstClaims.

Import Types Registry Props ConstFacts.




End ConstClaims.

(* ------------------------------------------------------------------ *)
(** ** Referenced scan mode *)

Module ReferencedClaims.

Import Orchestrator Props.



End ReferencedClaims.

(* ------------------------------------------------------------------ *)
(** ** Registering twice *)

Module RegistryClaims.

Import Types Registry Props UsageFacts.




End RegistryClaims.

(* ------------------------------------------------------------------ *)
(** ** Self-referential declarations *)

Module SelfRefClaims.

Import Types Registry Props.

(** C1.  [type Node struct { Next *Node }] without any comment panics:
    [ParseAnnotations] reads the [List] of the nil [Doc] groups.  With
    (empty) comment groups the scan completes, allocates one node, and the
    field [Next] refers to that node, the one the registry holds for
    [m.Node]. *)
Theorem self_reference_scan :
  parsePackageNormalMode allScan 10 pkgM [nodeFile None] emptyState = inl nilDeref /\
  option_map nodeSummary (finalState (parsePackageNormalMode allScan 10 pkgM [nodeFile noDoc] emptyState))
  = Some (Some 0%nat, Some [Some 0%nat], 1%nat).
Proof. split; vm_compute; reflexivity. Qed.

End SelfRefClaims.

(* ------------------------------------------------------------------ *)
(** ** Generic instantiations *)

Module GenericFacts.

Import Types Registry.












End GenericFacts.

Module GenericClaims.

Import Types Registry Props GenericFacts.




End GenericClaims.


(* ------------------------------------------------------------------ *)
(** ** Visibility *)

Module VisibilityFacts.

Import Annotations Types Registry Props.

Lemma determineVisibility_ok (name : string) :
  determineVisibility name = VisibilityPublic \/ determineVisibility name = VisibilityPrivate.
Proof.
  unfold determineVisibility; destruct name as [|c r]; [auto|].
  destruct (IsBasicType _); [auto|]. destruct (_ && _); auto.
Qed.

Lemma determineVisibility_visOK (name : string) : visOK (determineVisibility name).
Proof. destruct (determineVisibility_ok name) as [-> | ->]; discriminate. Qed.

Lemma keeps_ret {A} (Q : A -> Prop) (a : A) : Q a -> keeps Q (ret a).
Proof. intros Hq st a' st' Hi H; unfold ret in H; injection H as <- <-; auto. Qed.

Lemma keeps_bind {A B} (Q1 : A -> Prop) (Q2 : B -> Prop) (m : M A) (k : A -> M B) :
  keeps Q1 m -> (forall a, Q1 a -> keeps Q2 (k a)) -> keeps Q2 (bind m k).
Proof.
  intros Hm Hk st b st' Hi H; unfold bind in H.
  destruct (m st) as [e|[a st1]] eqn:E; [discriminate|].
  destruct (Hm st a st1 Hi E) as [Hi1 Hq1]. exact (Hk a Hq1 st1 b st' Hi1 H).
Qed.

Lemma keeps_weaken {A} (Q Q' : A -> Prop) (m : M A) :
  keeps Q m -> (forall a, Q a -> Q' a) -> keeps Q' m.
Proof. intros Hm HQ st a st' Hi H; destruct (Hm st a st' Hi H); auto. Qed.

Lemma keeps_fail {A} (Q : A -> Prop) (e : Failure) : keeps Q (fail e).
Proof. intros st a st' _ H; discriminate. Qed.

Lemma keeps_liftOpt {A} (Q : A -> Prop) (o : option A) :
  (forall a, o = Some a -> Q a) -> keeps Q (liftOpt o).
Proof. intros Hq; destruct o; [apply keeps_ret; auto | apply keeps_fail]. Qed.

Lemma keeps_load (p : ptr) : keeps tiOK (load p).
Proof.
  intros st t st' Hi H; unfold load in H.
  destruct (Heap st !! p) as [t0|] eqn:E; [injection H as <- <- | discriminate].
  split; [exact Hi | exact (map_Forall_lookup_1 _ _ _ _ (proj1 Hi) E)].
Qed.

Lemma keeps_store (p : ptr) (t : TypeInfo) : tiOK t -> keeps (fun _ => True) (store p t).
Proof.
  intros Ht st u st' [Hh Hc] H; unfold store in H; injection H as <- <-.
  split; [split; cbn; [apply map_Forall_insert_2; assumption | exact Hc] | exact I].
Qed.

Lemma keeps_modify (p : ptr) (f : TypeInfo -> TypeInfo) :
  (forall t, tiOK t -> tiOK (f t)) -> keeps (fun _ => True) (modify p f).
Proof.
  intros Hf. unfold modify. eapply keeps_bind; [apply keeps_load|].
  intros t Ht. apply keeps_store, Hf, Ht.
Qed.

Lemma keeps_alloc (t : TypeInfo) : tiOK t -> keeps (fun _ => True) (alloc t).
Proof.
  intros Ht st u st' [Hh Hc] H; unfold alloc in H; injection H as <- <-.
  split; [split; cbn; [apply map_Forall_insert_2; assumption | exact Hc] | exact I].
Qed.

Lemma keeps_setType (c : string) (p : ptr) : keeps (fun _ => True) (setType c p).
Proof. intros st u st' Hi H; unfold setType in H; injection H as <- <-; split; [exact Hi | exact I]. Qed.

Lemma keeps_lookupType (c : string) : keeps (fun _ => True) (lookupType c).
Proof. intros st u st' Hi H; unfold lookupType in H; injection H as <- <-; split; [exact Hi | exact I]. Qed.

Lemma keeps_appendConst (k : string) (ev : EnumValue) :
  evOK ev -> keeps (fun _ => True) (appendConst k ev).
Proof.
  intros He st u st' [Hh Hc] H; unfold appendConst in H; injection H as <- <-.
  split; [split; cbn; [exact Hh | apply map_Forall_insert_2; [|exact Hc]] | exact I].
  apply Forall_app_2; [|constructor; [exact He | constructor]].
  destruct (ConstsByType st !! k) as [evs|] eqn:E; cbn; [|constructor].
  exact (map_Forall_lookup_1 _ _ _ _ Hc E).
Qed.

Lemma keeps_parseAnnotationsM (gs : list CommentGroup) : keeps (fun _ => True) (parseAnnotationsM gs).
Proof. apply keeps_liftOpt; auto. Qed.

Lemma keeps_forM_ {A} (l : list A) (f : A -> M unit) :
  (forall x, In x l -> keeps (fun _ => True) (f x)) -> keeps (fun _ => True) (forM_ l f).
Proof.
  induction l as [|x r IH]; intros Hf; cbn [forM_]; [apply keeps_ret; exact I|].
  eapply keeps_bind; [apply Hf; left; reflexivity|]. intros _ _. apply IH; intros y Hy; apply Hf; right; exact Hy.
Qed.

Lemma keeps_mapM {A B} (Q : B -> Prop) (f : A -> M B) (l : list A) :
  (forall x, In x l -> keeps Q (f x)) -> keeps (Forall Q) (mapM f l).
Proof.
  induction l as [|x r IH]; intros Hf; cbn [mapM]; [apply keeps_ret; constructor|].
  eapply keeps_bind; [apply Hf; left; reflexivity|]. intros y Hy.
  eapply keeps_bind; [apply IH; intros z Hz; apply Hf; right; exact Hz|]. intros ys Hys.
  apply keeps_ret; constructor; assumption.
Qed.

Lemma Forall_concat_2 {A} (P : A -> Prop) (ls : list (list A)) : Forall (Forall P) ls -> Forall P (concat ls).
Proof. induction 1; cbn; [constructor | apply Forall_app_2; assumption]. Qed.

Lemma Forall_goCopy {A} (P : A -> Prop) (dst src : list A) :
  Forall P dst -> Forall P src -> Forall P (goCopy dst src).
Proof. intros Hd Hs; unfold goCopy; apply Forall_app_2; [apply Forall_take | apply Forall_drop]; assumption. Qed.

Lemma Forall_repeat {A} (P : A -> Prop) (x : A) (n : nat) : P x -> Forall P (repeat x n).
Proof. intros Hx; induction n; constructor; assumption. Qed.

Lemma tiOK_set_Fields (v : list FieldInfo) (t : TypeInfo) : tiOK t -> Forall fiOK v -> tiOK (set_Fields v t).
Proof. intros (H1&H2&H3&H4&H5) Hv; exact (conj H1 (conj Hv (conj H3 (conj H4 H5)))). Qed.

Lemma tiOK_set_Methods (v : list FunctionInfo) (t : TypeInfo) : tiOK t -> Forall fnOK v -> tiOK (set_Methods v t).
Proof. intros (H1&H2&H3&H4&H5) Hv; exact (conj H1 (conj H2 (conj Hv (conj H4 H5)))). Qed.

Lemma tiOK_set_FunctionSig (f : FunctionInfo) (t : TypeInfo) : tiOK t -> fnOK f -> tiOK (set_FunctionSig (Some f) t).
Proof. intros (H1&H2&H3&H4&H5) Hv; exact (conj H1 (conj H2 (conj H3 (conj Hv H5)))). Qed.

Lemma tiOK_set_EnumValues (v : list EnumValue) (t : TypeInfo) : tiOK t -> Forall evOK v -> tiOK (set_EnumValues v t).
Proof. intros (H1&H2&H3&H4&H5) Hv; exact (conj H1 (conj H2 (conj H3 (conj H4 Hv)))). Qed.

Lemma zeroFieldInfo_ok : fiOK zeroFieldInfo.
Proof. split; discriminate. Qed.

Lemma zeroFunctionInfo_ok : fnOK zeroFunctionInfo.
Proof. split; [discriminate | split; constructor]. Qed.

Lemma keeps_trackEmbeddedUsage (q parent : ptr) : keeps (fun _ => True) (trackEmbeddedUsage q parent).
Proof. unfold trackEmbeddedUsage; eapply keeps_bind; [apply keeps_load|]; intros; apply keeps_modify; intros t Ht; exact Ht. Qed.

Lemma keeps_trackFieldUsage (q parent : ptr) (n : string) : keeps (fun _ => True) (trackFieldUsage q parent n).
Proof. unfold trackFieldUsage; eapply keeps_bind; [apply keeps_load|]; intros; apply keeps_modify; intros t Ht; exact Ht. Qed.

Lemma keeps_trackParameterUsage (q : ptr) (f n : string) : keeps (fun _ => True) (trackParameterUsage q f n).
Proof. unfold trackParameterUsage; apply keeps_modify; intros t Ht; exact Ht. Qed.

Lemma keeps_trackReturnUsage (q : ptr) (f n : string) : keeps (fun _ => True) (trackReturnUsage q f n).
Proof. unfold trackReturnUsage; apply keeps_modify; intros t Ht; exact Ht. Qed.

Section Parsers.

Variable cfg : ScanOptions.
Variable goc : GocFn.
Hypothesis Hgoc : forall e n g f pkg ts, keeps (fun _ => True) (goc e n g f pkg ts).

Set Default Proof Using "Type*".

Ltac kstep :=
  match goal with
  | |- keeps _ (bind (load _) _) => apply (keeps_bind tiOK); [apply keeps_load | intros ? ?]
  | |- keeps _ (bind _ _) => apply (keeps_bind (fun _ => True)); [| intros ? _]
  | |- keeps _ (ret _) => apply keeps_ret
  | |- keeps _ (fail _) => apply keeps_fail
  | |- keeps _ (parseAnnotationsM _) => apply keeps_parseAnnotationsM
  | |- keeps _ (lookupType _) => apply keeps_lookupType
  | |- keeps _ (setType _ _) => apply keeps_setType
  | |- keeps _ (goc _ _ _ _ _ _) => apply Hgoc
  | |- keeps _ (trackEmbeddedUsage _ _) => apply keeps_trackEmbeddedUsage
  | |- keeps _ (trackFieldUsage _ _ _) => apply keeps_trackFieldUsage
  | |- keeps _ (trackParameterUsage _ _ _) => apply keeps_trackParameterUsage
  | |- keeps _ (trackReturnUsage _ _ _) => apply keeps_trackReturnUsage
  | |- keeps _ (if ?c then _ else _) => destruct c
  | |- keeps _ (match ?x with _ => _ end) => destruct x
  | |- True => exact I
  end.

(** Closes a [visOK] goal about a visibility built by the code. *)
Ltac vis :=
  repeat match goal with
         | |- context [if ?c then _ else _] => destruct c
         | |- context [match ?x with _ => _ end] => destruct x
         end;
  unfold teOK, fiOK, evOK, visOK; cbn;
  first [ discriminate | apply determineVisibility_visOK
        | match goal with H : tiOK _ |- _ => apply (proj1 H) end ].

Lemma keeps_refOf (o : option ptr) : keeps (fun _ => True) (refOf o).
Proof. unfold refOf; repeat kstep. Qed.

Lemma keeps_parseTypedElement (e : Expr) (name : string) (groups : option (list CommentGroup))
    (file : option File) (pkg : Package) : keeps teOK (parseTypedElement goc e name groups file pkg).
Proof.
  unfold parseTypedElement.
  destruct (match e with StarExpr x => (true, x) | _ => (false, e) end) as [isPointer typeExpr].
  repeat kstep; vis.
Qed.

Ltac kstep' :=
  match goal with
  | |- keeps _ (bind (parseTypedElement _ _ _ _ _ _) _) =>
      apply (keeps_bind teOK); [apply keeps_parseTypedElement | intros ? ?]
  | _ => kstep
  end.

Lemma keeps_NewFieldInfoFromAst (f : Field) (file : option File) (pkg : Package) :
  keeps fiOK (NewFieldInfoFromAst goc f file pkg).
Proof.
  unfold NewFieldInfoFromAst.
  apply (keeps_bind teOK); [apply keeps_parseTypedElement | intros te Hte].
  apply keeps_ret; split; [apply determineVisibility_visOK | exact Hte].
Qed.

Lemma keeps_parseParamList (skipUnnamed : bool) (ps : list Field) (file : option File) (pkg : Package)
    (key : string) : keeps (Forall teOK) (parseParamList goc skipUnnamed ps file pkg key).
Proof.
  unfold parseParamList.
  apply (keeps_bind (Forall (Forall teOK))); [apply keeps_mapM; intros f _ | intros tes H;
    apply keeps_ret, Forall_concat_2, H].
  destruct (fieldNames f) as [|n ns].
  - repeat kstep'; repeat constructor; assumption.
  - apply keeps_mapM; intros n' _. repeat kstep'; assumption.
Qed.

Lemma keeps_parseResultList (rs : list Field) (file : option File) (pkg : Package) (key : string) :
  keeps (Forall teOK) (parseResultList goc rs file pkg key).
Proof.
  unfold parseResultList.
  apply (keeps_bind (Forall (Forall teOK))); [apply keeps_mapM; intros f _ | intros tes H;
    apply keeps_ret, Forall_concat_2, H].
  destruct (fieldNames f) as [|n ns].
  - repeat kstep'; repeat constructor; assumption.
  - apply keeps_mapM; intros n' _. repeat kstep'; assumption.
Qed.

Lemma keeps_addMethod (p : ptr) (fi : FunctionInfo) : fnOK fi -> keeps (fun _ => True) (addMethod p fi).
Proof.
  intros Hf; unfold addMethod; apply keeps_modify; intros t Ht.
  apply tiOK_set_Methods; [exact Ht|]. apply Forall_app_2; [apply Ht | constructor; [exact Hf | constructor]].
Qed.

Ltac kstep'' :=
  match goal with
  | |- keeps _ (bind (parseParamList _ _ _ _ _ _) _) =>
      apply (keeps_bind (Forall teOK)); [apply keeps_parseParamList | intros ? ?]
  | |- keeps _ (bind (parseResultList _ _ _ _ _) _) =>
      apply (keeps_bind (Forall teOK)); [apply keeps_parseResultList | intros ? ?]
  | |- keeps _ (bind (refOf _) _) => apply (keeps_bind (fun _ => True)); [apply keeps_refOf | intros ? _]
  | |- keeps _ (addMethod _ _) => apply keeps_addMethod
  | |- keeps _ (forM_ _ _) => apply keeps_forM_; intros ? ?
  | |- keeps _ (modify _ _) => apply keeps_modify; intros ? ?
  | _ => kstep'
  end.

Lemma keeps_parseMethods (p : ptr) (file : File) (typeName : string) :
  keeps (fun _ => True) (parseMethods goc p file typeName).
Proof.
  unfold parseMethods. repeat kstep''.
  split; [apply determineVisibility_visOK | split; assumption].
Qed.

Lemma keeps_parseContainerTypes (p : ptr) : keeps (fun _ => True) (parseContainerTypes goc p).
Proof. unfold parseContainerTypes. repeat kstep''; assumption. Qed.

Lemma keeps_parseFunctionSignature (p : ptr) : keeps (fun _ => True) (parseFunctionSignature goc p).
Proof.
  unfold parseFunctionSignature. repeat kstep''.
  apply tiOK_set_FunctionSig; [assumption|].
  split; [apply determineVisibility_visOK | split; assumption].
Qed.

Lemma keeps_parseInterfaceMethod (p : ptr) (ti : TypeInfo) (m : Field) :
  keeps (fun _ => True) (parseInterfaceMethod goc p ti m).
Proof.
  unfold parseInterfaceMethod. repeat kstep''.
  - match goal with
    | Ht : tiOK ?t, Hx : In ?x (Methods ?t) |- _ =>
        exact (proj1 (List.Forall_forall _ _) (proj1 (proj2 (proj2 Ht))) x Hx)
    end.
  - split; [apply determineVisibility_visOK | split; assumption].
Qed.

Ltac kstep3 :=
  match goal with
  | |- keeps _ (bind (NewFieldInfoFromAst _ _ _ _) _) =>
      apply (keeps_bind fiOK); [apply keeps_NewFieldInfoFromAst | intros ? ?]
  | |- keeps _ (parseMethods _ _ _ _) => apply keeps_parseMethods
  | |- keeps _ (parseContainerTypes _ _) => apply keeps_parseContainerTypes
  | |- keeps _ (parseFunctionSignature _ _) => apply keeps_parseFunctionSignature
  | |- keeps _ (parseInterfaceMethod _ _ _ _) => apply keeps_parseInterfaceMethod
  | _ => kstep''
  end.

Lemma keeps_parseFields (p : ptr) : keeps (fun _ => True) (parseFields cfg goc p).
Proof.
  unfold parseFields.
  apply (keeps_bind tiOK); [apply keeps_load | intros ti Hti].
  destruct (Kind ti), (structType ti) as [[fs|]|]; repeat kstep3; try assumption.
  apply tiOK_set_Fields; [assumption|].
  apply Forall_app_2; [apply (proj1 (proj2 H1)) | constructor; [assumption | constructor]].
Qed.


(** Closes a [tiOK] goal whose update leaves the visibilities alone. *)
Ltac same_vis :=
  cbv beta; repeat match goal with |- context [match ?x with _ => _ end] => destruct x end; assumption.

Ltac from_tiOK :=
  match goal with
  | Ht : tiOK ?t |- Forall _ (Fields ?t) => exact (proj1 (proj2 Ht))
  | Ht : tiOK ?t |- Forall _ (Methods ?t) => exact (proj1 (proj2 (proj2 Ht)))
  end.

Lemma keeps_parseAliasTarget (p : ptr) : keeps (fun _ => True) (parseAliasTarget goc p).
Proof. unfold parseAliasTarget. repeat kstep3; assumption. Qed.

Lemma keeps_setBase (p : ptr) (b : option ptr) : keeps (fun _ => True) (setBase p b).
Proof. unfold setBase. repeat kstep3; same_vis. Qed.

Lemma keeps_parseGenericInstantiation (p : ptr) : keeps (fun _ => True) (parseGenericInstantiation goc p).
Proof.
  unfold parseGenericInstantiation. repeat (match goal with
  | |- keeps _ (bind (setBase _ _) _) => apply (keeps_bind (fun _ => True)); [apply keeps_setBase | intros ? _]
  | _ => kstep3 end); try same_vis.
  - apply tiOK_set_Fields; [assumption | apply Forall_repeat, zeroFieldInfo_ok].
  - apply tiOK_set_Fields; [assumption | apply Forall_goCopy; from_tiOK].
  - apply tiOK_set_Methods; [assumption | apply Forall_repeat, zeroFunctionInfo_ok].
  - apply tiOK_set_Methods; [assumption | apply Forall_goCopy; from_tiOK].
Qed.

Lemma keeps_parseTypeParams (p : ptr) : keeps (fun _ => True) (parseTypeParams goc p).
Proof.
  unfold parseTypeParams.
  apply (keeps_bind tiOK); [apply keeps_load | intros ti Hti].
  destruct (typeParamList ti) as [ps|]; [|repeat kstep3].
  apply (keeps_bind (fun _ => True)); [| intros; kstep3; assumption].
  generalize 0%nat. induction (concat _) as [|f r IH]; intros idx; repeat kstep3; try same_vis.
  apply IH.
Qed.

End Parsers.

Lemma NewTypeInfoFromExpr_ok (e : Expr) (typeName : string) (groups : option (list CommentGroup))
    (file : option File) (pkg : Package) (ts : option TypeSpec) (ti : TypeInfo) :
  NewTypeInfoFromExpr e typeName groups file pkg ts = Some (Some ti) -> tiOK ti.
Proof.
  revert typeName. induction e; intros typeName H; cbn [NewTypeInfoFromExpr] in H;
    try (eapply IHe; exact H).
  all: unfold mbind, option_bind in H;
    destruct (match groups with Some gs => ParseAnnotations gs | None => Some [] end); [|discriminate].
  all: cbv beta iota zeta in H.
  all: repeat match type of H with context [if ?c then _ else _] => destruct c end;
       repeat match type of H with context [match ?x with _ => _ end] => destruct x end;
       repeat match type of H with context [if ?c then _ else _] => destruct c end.
  all: try discriminate H; injection H as H; subst ti.
  all: exact (conj (determineVisibility_visOK typeName) (conj (List.Forall_nil _) (conj (List.Forall_nil _)
                 (conj I (List.Forall_nil _))))).
Qed.

Lemma keeps_GetOrCreateTypeInfo_with (cfg : ScanOptions) (goc : GocFn) :
  (forall e n g f pkg ts, keeps (fun _ => True) (goc e n g f pkg ts)) ->
  forall e n g f pkg ts, keeps (fun _ => True) (GetOrCreateTypeInfo_with cfg goc e n g f pkg ts).
Proof.
  intros Hgoc e n g f pkg ts. unfold GetOrCreateTypeInfo_with.
  apply (keeps_bind (fun _ => True)); [apply keeps_lookupType | intros cached _].
  destruct cached as [p|]; [apply keeps_ret; exact I|].
  apply (keeps_bind (fun r => match r with Some ti => tiOK ti | None => True end)).
  { apply keeps_liftOpt; intros [ti|] Hr; [exact (NewTypeInfoFromExpr_ok _ _ _ _ _ _ _ Hr) | exact I]. }
  intros [ti|] Hti; [|apply keeps_ret; exact I].
  apply (keeps_bind (fun _ => True)); [apply keeps_alloc; exact Hti | intros p _].
  apply (keeps_bind (fun _ => True)); [apply keeps_setType | intros _ _].
  destruct (Kind ti), (structType ti); try (apply keeps_ret; exact I).
  apply (keeps_bind (fun _ => True)); [apply keeps_parseFields, Hgoc | intros; apply keeps_ret; exact I].
Qed.

Lemma keeps_GetOrCreateTypeInfo (cfg : ScanOptions) (fuel : nat) :
  forall e n g f pkg ts, keeps (fun _ => True) (GetOrCreateTypeInfo cfg fuel e n g f pkg ts).
Proof.
  induction fuel as [|fuel IH]; intros e n g f pkg ts; cbn [GetOrCreateTypeInfo].
  - apply keeps_fail.
  - apply keeps_GetOrCreateTypeInfo_with, IH.
Qed.

Lemma keeps_AddTypeSpec (cfg : ScanOptions) (fuel : nat) (spec : TypeSpec) (gd : GenDecl) (file : File)
    (pkg : Package) : keeps (fun _ => True) (AddTypeSpec cfg fuel spec gd file pkg).
Proof.
  pose proof (keeps_GetOrCreateTypeInfo cfg fuel) as Hgoc.
  unfold AddTypeSpec. destruct (negb _); [apply keeps_ret; exact I|].
  apply (keeps_bind (fun r => match r with Some ti => tiOK ti | None => True end)).
  { apply keeps_liftOpt; intros [ti|] Hr; [exact (NewTypeInfoFromExpr_ok _ _ _ _ _ _ _ Hr) | exact I]. }
  intros [ti|] Hti; [|apply keeps_ret; exact I].
  apply (keeps_bind (fun _ => True)); [apply keeps_alloc; exact Hti | intros p _].
  apply (keeps_bind (fun _ => True)); [apply keeps_setType | intros _ _].
  apply (keeps_bind (fun _ => True)); [apply keeps_parseTypeParams, Hgoc | intros _ _].
  apply (keeps_bind (fun _ => True)); [apply keeps_parseAliasTarget, Hgoc | intros _ _].
  apply (keeps_bind (fun _ => True)); [apply keeps_parseGenericInstantiation, Hgoc | intros _ _].
  apply keeps_parseFields, Hgoc.
Qed.

Lemma keeps_constNames (gd : GenDecl) (vs : ValueSpec) (names : list string) (i : nat) (cs : ConstScan) :
  keeps (fun _ => True) (constNames gd vs names i cs).
Proof.
  revert i cs. induction names as [|name r IH]; intros i cs; cbn [constNames];
    [apply keeps_ret; exact I|].
  destruct (String.eqb _ _); [apply IH|].
  destruct (constValueAt vs i cs) as [cv last'].
  apply (keeps_bind (fun _ => True)).
  { destruct (currentTypeInfo cs); [apply (keeps_weaken tiOK); [apply keeps_load | auto] | apply keeps_fail]. }
  intros tin _.
  apply (keeps_bind (fun _ => True)); [apply keeps_parseAnnotationsM | intros ann _].
  apply (keeps_bind (fun _ => True)); [apply keeps_appendConst, determineVisibility_visOK | intros _ _].
  apply IH.
Qed.

Lemma keeps_constSpecs (cfg : ScanOptions) (fuel : nat) (gd : GenDecl) (file : File) (pkg : Package)
    (specs : list Spec) (cs : ConstScan) : keeps (fun _ => True) (constSpecs cfg fuel gd file pkg specs cs).
Proof.
  revert cs. induction specs as [|sp r IH]; intros cs; cbn [constSpecs]; [apply keeps_ret; exact I|].
  destruct sp as [ts|vs|]; [apply IH| |apply IH].
  apply (keeps_bind (fun _ => True)).
  { destruct (vsType vs); [|apply keeps_ret; exact I].
    apply (keeps_bind (fun _ => True)); [apply keeps_GetOrCreateTypeInfo | intros; apply keeps_ret; exact I]. }
  intros cs1 _. apply (keeps_bind (fun _ => True)); [apply keeps_constNames | intros; apply IH].
Qed.

Lemma keeps_AddConstBlock (cfg : ScanOptions) (fuel : nat) (gd : GenDecl) (file : File) (pkg : Package) :
  keeps (fun _ => True) (AddConstBlock cfg fuel gd file pkg).
Proof. unfold AddConstBlock; destruct (negb _); [apply keeps_ret; exact I | apply keeps_constSpecs]. Qed.

Lemma keeps_AddFuncDecl (cfg : ScanOptions) (fuel : nat) (fd : FuncDecl) (file : File) (pkg : Package) :
  keeps (fun _ => True) (AddFuncDecl cfg fuel fd file pkg).
Proof.
  pose proof (keeps_GetOrCreateTypeInfo cfg fuel) as Hgoc.
  unfold AddFuncDecl. destruct (negb _); [apply keeps_ret; exact I|].
  apply (keeps_bind (fun _ => True)); [apply keeps_parseAnnotationsM | intros ann _].
  apply (keeps_bind (Forall teOK)); [apply keeps_parseParamList, Hgoc | intros parms Hp].
  apply (keeps_bind (Forall teOK)); [apply keeps_parseResultList, Hgoc | intros rets Hr].
  apply (keeps_bind (fun _ => True)); [apply keeps_parseAnnotationsM | intros ann2 _].
  apply (keeps_bind (fun _ => True)); [apply keeps_alloc | intros p _; apply keeps_setType].
  refine (conj (determineVisibility_visOK _) (conj (List.Forall_nil _) (conj (List.Forall_nil _)
            (conj _ (List.Forall_nil _))))).
  exact (conj (determineVisibility_visOK _) (conj Hp Hr)).
Qed.

Lemma keeps_detectEnums : keeps (fun _ => True) detectEnums.
Proof.
  intros st u st' Hi H. unfold detectEnums in H.
  refine (keeps_forM_ _ _ _ st u st' Hi H).
  intros [k evs] Hin. cbn [fst snd].
  apply list_elem_of_In, elem_of_map_to_list in Hin.
  pose proof (map_Forall_lookup_1 _ _ _ _ (proj2 Hi) Hin) as Hevs.
  destruct (ctxTypes st !! k) as [p|]; [|apply keeps_ret; exact I].
  apply keeps_modify; intros t Ht. apply tiOK_set_EnumValues; [exact Ht | exact Hevs].
Qed.

Lemma keeps_parsePackageNormalMode (cfg : ScanOptions) (fuel : nat) (pkg : Package) (files : list File) :
  keeps (fun _ => True) (parsePackageNormalMode cfg fuel pkg files).
Proof.
  unfold parsePackageNormalMode.
  apply (keeps_bind (fun _ => True)); [|intros; apply keeps_detectEnums].
  apply keeps_forM_; intros file _. apply keeps_forM_; intros d _.
  destruct d as [gd|fd].
  - destruct (gdTok gd); [apply keeps_AddConstBlock | ..];
      apply keeps_forM_; intros sp _;
      (destruct sp as [ts|vs|]; [apply keeps_AddTypeSpec | apply keeps_ret; exact I | apply keeps_ret; exact I]).
  - destruct (fdRecv fd); [apply keeps_ret; exact I | apply keeps_AddFuncDecl].
Qed.


End VisibilityFacts.

Module VisibilityClaims.

Import Types Registry Props VisibilityFacts.

(** C10.  [determineVisibility] returns [public] or [private], and a scan
    of a package ([parsePackageNormalMode]) from a state with no
    [protected] visibility (the empty state in particular) assigns
    [protected] to no node, field, method, function signature, parameter,
    result or enum value. *)
Theorem visibility_never_protected (cfg : ScanOptions) (fuel : nat) (pkg : Package) (files : list File)
    (st st' : State) :
  NoProtected st -> parsePackageNormalMode cfg fuel pkg files st = inr (tt, st') ->
  (forall name, determineVisibility name = VisibilityPublic \/ determineVisibility name = VisibilityPrivate) /\
  NoProtected st'.
Proof.
  intros Hi H. split; [apply determineVisibility_ok|].
  exact (proj1 (keeps_parsePackageNormalMode cfg fuel pkg files st tt st' Hi H)).
Qed.

(** C10, on the scan of [colorFile] and [genericFile] from the empty state. *)
Lemma visibility_never_protected_witness :
  (forall name, determineVisibility name = VisibilityPublic \/ determineVisibility name = VisibilityPrivate) /\
  NoProtected visState.
Proof.
  apply (visibility_never_protected allScan 10 pkgM [colorFile; genericFile] emptyState visState).
  - split; intros i x Hx; vm_compute in Hx; discriminate Hx.
  - vm_compute; reflexivity.
Defined.

End VisibilityClaims.


(* ------------------------------------------------------------------ *)
(** ** Struct tags, schema type names, iota blocks, pointer types and enum detection *)

Module StructTagsFacts.

Import StructTags QuoteFacts.

Lemma ra_hit (a b : ascii) (new r : string) :
  replaceAll2 a b new (String a (String b r)) = new ++ replaceAll2 a b new r.
Proof. cbn [replaceAll2]. now rewrite !Ascii.eqb_refl. Qed.

Lemma ra_miss (a b : ascii) (new : string) (c : ascii) (t : string) :
  (Ascii.eqb c a && match t with String d _ => Ascii.eqb d b | EmptyString => false end) = false ->
  replaceAll2 a b new (String c t) = String c (replaceAll2 a b new t).
Proof. destruct t as [|d r]; cbn [replaceAll2]; [reflexivity|]. intros ->; reflexivity. Qed.

Lemma escapeTag_head (v : string) :
  match escapeTag v with String d _ => Ascii.eqb d dq | EmptyString => false end = false.
Proof.
  destruct v as [|c r]; [reflexivity|]. cbn [escapeTag].
  destruct (Ascii.eqb c bsl) eqn:E1; [reflexivity|].
  destruct (Ascii.eqb c dq) eqn:E2; [reflexivity|]. exact E2.
Qed.

Lemma unescape_pass1 (v : string) : replaceAll2 bsl dq DQ (escapeTag v) = escapeBsl v.
Proof.
  induction v as [|c r IH]; [reflexivity|]. cbn [escapeTag escapeBsl].
  destruct (Ascii.eqb c bsl) eqn:E1.
  - rewrite ra_miss by reflexivity. rewrite ra_miss.
    + now rewrite IH.
    + rewrite Ascii.eqb_refl; apply escapeTag_head.
  - destruct (Ascii.eqb c dq) eqn:E2.
    + apply Ascii.eqb_eq in E2; subst c. rewrite ra_hit, IH; reflexivity.
    + rewrite ra_miss by now rewrite E1. now rewrite IH.
Qed.

Lemma unescape_pass2 (v : string) : replaceAll2 bsl bsl (String bsl EmptyString) (escapeBsl v) = v.
Proof.
  induction v as [|c r IH]; [reflexivity|]. cbn [escapeBsl].
  destruct (Ascii.eqb c bsl) eqn:E1.
  - apply Ascii.eqb_eq in E1; subst c. rewrite ra_hit, IH; reflexivity.
  - rewrite ra_miss by now rewrite E1. now rewrite IH.
Qed.

Lemma unescape_escape (v : string) : unescapeTag (escapeTag v) = v.
Proof. unfold unescapeTag; now rewrite unescape_pass1, unescape_pass2. Qed.

Lemma scanQuoted_escape (v rest : string) :
  scanQuoted (escapeTag v ++ String dq rest) = Some (String.length (escapeTag v)).
Proof.
  induction v as [|c r IH]; [reflexivity|]. cbn [escapeTag].
  destruct (Ascii.eqb c bsl) eqn:E1; [|destruct (Ascii.eqb c dq) eqn:E2].
  - rewrite !sapp_cons; cbn [scanQuoted]. rewrite IH; reflexivity.
  - rewrite !sapp_cons; cbn [scanQuoted]. rewrite IH; reflexivity.
  - rewrite sapp_cons; cbn [scanQuoted]. rewrite E1, E2, IH; reflexivity.
Qed.

Lemma IndexChar_app_colon (k x : string) :
  ~ In ":"%char (list_ascii_of_string k) -> IndexChar (k ++ String ":"%char x) ":"%char = Some (String.length k).
Proof.
  induction k as [|c k IH]; intros H; [reflexivity|].
  rewrite sapp_cons; cbn [IndexChar list_ascii_of_string] in *.
  destruct (Ascii.eqb c ":"%char) eqn:E.
  - apply Ascii.eqb_eq in E; subst; exfalso; apply H; left; reflexivity.
  - rewrite IH; [reflexivity|]. intros Hin; apply H; right; exact Hin.
Qed.

Lemma keyOK_spec (k : string) :
  keyOK k = true ->
  ~ In ":"%char (list_ascii_of_string k) /\
  match k with String c _ => c <> " "%char | EmptyString => True end.
Proof.
  unfold keyOK. intros H. apply andb_prop in H as [H1 H2]. split.
  - intros Hin. apply negb_true_iff in H1. rewrite <- not_true_iff_false in H1.
    apply H1, existsb_exists. exists ":"%char; split; [exact Hin | apply Ascii.eqb_refl].
  - destruct k as [|c r]; [exact I|]. intros ->. discriminate H2.
Qed.

Lemma substring_after (a b : string) (n : nat) :
  substring (String.length a) n (a ++ b) = substring 0 n b.
Proof. rewrite <- (Nat.add_0_r (String.length a)). apply substring_skip. Qed.

Lemma substring_rest (b : string) : substring 0 (String.length b) b = b.
Proof. apply substring_all. Qed.

Lemma tagLoop_empty (f : nat) (m : gmap string string) : tagLoop f EmptyString m = m.
Proof. destruct f; reflexivity. Qed.

Lemma skipSpaces_keep (c : ascii) (r : string) : c <> " "%char -> skipSpaces (String c r) = String c r.
Proof.
  intros H; unfold skipSpaces; apply trimLeftBy_cons_keep.
  destruct (Ascii.eqb c " "%char) eqn:E; [apply Ascii.eqb_eq in E; contradiction | reflexivity].
Qed.

Lemma skipSpaces_pair (k x : string) :
  keyOK k = true -> skipSpaces (k ++ String ":"%char x) = k ++ String ":"%char x.
Proof.
  intros Hk. destruct (keyOK_spec k Hk) as [Hc Hs]. destruct k as [|c k].
  - apply skipSpaces_keep; discriminate.
  - rewrite sapp_cons; apply skipSpaces_keep; exact Hs.
Qed.

Lemma match_nonempty {A : Type} (s : string) (a g : A) :
  s <> EmptyString -> match s with EmptyString => a | String _ _ => g end = g.
Proof. destruct s; [congruence | reflexivity]. Qed.

(** One round of the loop on a rendered pair. *)
Lemma tagLoop_pair (f : nat) (k v rest : string) (m : gmap string string) :
  keyOK k = true ->
  tagLoop (S f) (renderPair (k, v) ++ rest) m = tagLoop f rest (<[k := v]> m).
Proof.
  intros Hk. unfold renderPair; cbn [fst snd].
  set (x := (DQ ++ escapeTag v ++ DQ) ++ rest).
  assert (E : (k ++ ":" ++ DQ ++ escapeTag v ++ DQ) ++ rest = k ++ String ":"%char x).
  { unfold x; rewrite <- !sapp_assoc; reflexivity. }
  rewrite E. cbn [tagLoop].
  assert (Hne : exists c t, k ++ String ":"%char x = String c t).
  { destruct k; [eexists; eexists; reflexivity | eexists; eexists; rewrite sapp_cons; reflexivity]. }
  rewrite (skipSpaces_pair k x Hk).
  destruct Hne as (c0 & t0 & Hct). rewrite (match_nonempty (k ++ String ":"%char x)) by (rewrite Hct; discriminate).
  rewrite (IndexChar_app_colon k x (proj1 (keyOK_spec k Hk))).
  rewrite substring_prefix.
  rewrite slength_app. cbn [String.length].
  replace (String.length k + S (String.length x) - S (String.length k))%nat with (String.length x) by lia.
  replace (S (String.length k)) with (String.length k + 1)%nat by lia.
  rewrite substring_skip. cbn [substring]. rewrite substring_rest.
  rewrite (match_nonempty (k ++ String ":"%char x)) by (rewrite Hct; discriminate).
  assert (Hx : x = String dq (escapeTag v ++ String dq rest)).
  { unfold x; rewrite <- !sapp_assoc; reflexivity. }
  rewrite Hx.
  rewrite skipSpaces_keep by (intros Hq; discriminate Hq).
  rewrite Ascii.eqb_refl.
  rewrite scanQuoted_escape.
  rewrite substring_prefix.
  rewrite slength_app; cbn [String.length].
  replace (String.length (escapeTag v) + S (String.length rest) - S (String.length (escapeTag v)))%nat
    with (String.length rest) by lia.
  replace (S (String.length (escapeTag v))) with (String.length (escapeTag v) + 1)%nat by lia.
  rewrite substring_skip. cbn [substring]. rewrite substring_rest.
  rewrite unescape_escape. reflexivity.
Qed.

Lemma tagLoop_space (f : nat) (s : string) (m : gmap string string) :
  s <> EmptyString -> tagLoop (S f) (String " "%char s) m = tagLoop (S f) s m.
Proof. destruct s; [congruence|]. intros _; reflexivity. Qed.

Lemma renderPair_nonempty (kv : string * string) (rest : string) :
  renderPair kv ++ rest <> EmptyString.
Proof. destruct kv as [k v]; unfold renderPair; cbn [fst snd]. destruct k; cbn; discriminate. Qed.

Lemma renderPairs_cons2 (kv kv2 : string * string) (r : list (string * string)) :
  renderPairs (kv :: kv2 :: r) = renderPair kv ++ String " "%char (renderPairs (kv2 :: r)).
Proof. reflexivity. Qed.

Lemma renderPairs_cons_app (kv2 : string * string) (r : list (string * string)) :
  exists t, renderPairs (kv2 :: r) = renderPair kv2 ++ t.
Proof. destruct r; [exists EmptyString; now rewrite sapp_nil_r | eexists; reflexivity]. Qed.

Lemma renderPairs_loop (kvs : list (string * string)) (f : nat) (m : gmap string string) :
  Forall (fun kv => keyOK kv.1 = true) kvs -> (length kvs < f)%nat ->
  tagLoop f (renderPairs kvs) m = insertAll kvs m.
Proof.
  revert f m; induction kvs as [|[k v] r IH]; intros f m HF Hf.
  - apply tagLoop_empty.
  - inversion HF as [|? ? Hk Hr]; subst; cbn [fst] in Hk.
    destruct f as [|f]; [cbn in Hf; lia|].
    destruct r as [|kv2 r'].
    + rewrite <- (sapp_nil_r (renderPairs [(k, v)])). cbn [renderPairs].
      rewrite tagLoop_pair by exact Hk. apply tagLoop_empty.
    + rewrite renderPairs_cons2, tagLoop_pair by exact Hk.
      destruct f as [|f]; [cbn in Hf; lia|].
      rewrite tagLoop_space.
      * apply IH; [exact Hr | cbn in Hf |- *; lia].
      * destruct (renderPairs_cons_app kv2 r') as [t ->]. apply renderPair_nonempty.
Qed.

Lemma parseStructTags_eq (tag0 : string) :
  parseStructTags tag0 = tagLoop (S (String.length (stripBackticks tag0))) (stripBackticks tag0) ∅.
Proof. reflexivity. Qed.

Lemma strip_wrapped (b : string) : stripBackticks (String BQ (b ++ String BQ EmptyString)) = b.
Proof.
  unfold stripBackticks. cbn [list_ascii_of_string].
  rewrite list_ascii_app. cbn [list_ascii_of_string].
  destruct (list_ascii_of_string b) as [|d l] eqn:Eb.
  - cbn. destruct b; [reflexivity | discriminate].
  - cbn [app]. rewrite Ascii.eqb_refl.
    replace (List.last (d :: app l [BQ]) BQ) with BQ.
    2:{ change (d :: app l [BQ]) with (app (d :: l) [BQ]). now rewrite List.last_last. }
    rewrite Ascii.eqb_refl. cbn [andb String.length].
    rewrite slength_app. cbn [String.length].
    replace (S (String.length b + 1) - 2)%nat with (String.length b) by lia.
    cbn [substring]. rewrite substring_prefix. reflexivity.
Qed.

Lemma renderPair_length (kv : string * string) : (1 <= String.length (renderPair kv))%nat.
Proof. destruct kv as [k v]. unfold renderPair; cbn [fst snd]. rewrite !slength_app; cbn; lia. Qed.

Lemma renderPairs_length (kvs : list (string * string)) :
  (length kvs <= String.length (renderPairs kvs))%nat.
Proof.
  induction kvs as [|kv r IH]; [cbn; lia|].
  destruct r as [|kv2 r'].
  - cbn [length renderPairs]. pose proof (renderPair_length kv); lia.
  - rewrite renderPairs_cons2, slength_app. cbn [String.length length] in *.
    pose proof (renderPair_length kv); lia.
Qed.

Lemma forallb_keyOK (kvs : list (string * string)) :
  forallb (fun kv => keyOK kv.1) kvs = true -> Forall (fun kv => keyOK kv.1 = true) kvs.
Proof. intros H. apply List.Forall_forall. intros x Hx. exact (proj1 (forallb_forall _ _) H x Hx). Qed.

(** X1.  Rendering key/value pairs as a Go struct tag (keys without a colon and
    without a leading space, values escaped as Go writes them) and parsing the
    tag back gives the map holding every key with its last value. *)
Theorem parseStructTags_render (kvs : list (string * string)) :
  forallb (fun kv => keyOK kv.1) kvs = true ->
  parseStructTags (renderTag kvs) = insertAll kvs ∅.
Proof.
  intros HF. rewrite parseStructTags_eq. unfold renderTag. rewrite strip_wrapped.
  apply renderPairs_loop; [exact (forallb_keyOK kvs HF)|]. pose proof (renderPairs_length kvs); lia.
Qed.

Lemma parseStructTags_render_witness :
  forallb (fun kv => keyOK kv.1) [("json", "a" ++ DQ ++ "b"); ("db", "x"); ("json", "c")] = true /\
  parseStructTags (renderTag [("json", "a" ++ DQ ++ "b"); ("db", "x"); ("json", "c")]) =
    insertAll [("json", "a" ++ DQ ++ "b"); ("db", "x"); ("json", "c")] ∅.
Proof. split; [reflexivity | apply parseStructTags_render; reflexivity]. Defined.

Lemma renderPairs_then (kvs : list (string * string)) (tail : string) (f : nat) (m : gmap string string) :
  Forall (fun kv => keyOK kv.1 = true) kvs -> (length kvs < f)%nat ->
  tagLoop f (renderPairs kvs ++ String " "%char tail) m =
  tagLoop (f - length kvs) (String " "%char tail) (insertAll kvs m).
Proof.
  revert f m; induction kvs as [|[k v] r IH]; intros f m HF Hf.
  - cbn. now rewrite Nat.sub_0_r.
  - inversion HF as [|? ? Hk Hr]; subst; cbn [fst] in Hk.
    destruct f as [|f]; [cbn in Hf; lia|].
    destruct r as [|kv2 r'].
    + cbn [renderPairs]. rewrite tagLoop_pair by exact Hk.
      replace (S f - length [(k, v)])%nat with f by (cbn; lia). reflexivity.
    + rewrite renderPairs_cons2, <- sapp_assoc, sapp_cons, tagLoop_pair by exact Hk.
      destruct f as [|f]; [cbn in Hf; lia|].
      rewrite tagLoop_space.
      * rewrite IH; [reflexivity | exact Hr | cbn in Hf |- *; lia].
      * destruct (renderPairs_cons_app kv2 r') as [t ->]. rewrite <- sapp_assoc. apply renderPair_nonempty.
Qed.

Lemma tagLoop_unquoted (f : nat) (k : string) (c : ascii) (rest : string) (m : gmap string string) :
  keyOK k = true -> c <> dq -> c <> " "%char ->
  tagLoop (S f) (String " "%char (k ++ String ":"%char (String c rest))) m = m.
Proof.
  intros Hk Hq Hs. rewrite tagLoop_space.
  2:{ destruct k; [discriminate | rewrite sapp_cons; discriminate]. }
  set (x := String c rest).
  cbn [tagLoop]. rewrite (skipSpaces_pair k x Hk).
  rewrite (match_nonempty (k ++ String ":"%char x)).
  2:{ destruct k; [discriminate | rewrite sapp_cons; discriminate]. }
  rewrite (IndexChar_app_colon k x (proj1 (keyOK_spec k Hk))).
  rewrite substring_prefix.
  rewrite slength_app. cbn [String.length].
  replace (String.length k + S (String.length x) - S (String.length k))%nat with (String.length x) by lia.
  replace (S (String.length k)) with (String.length k + 1)%nat by lia.
  rewrite substring_skip. cbn [substring]. rewrite substring_rest.
  unfold x. rewrite skipSpaces_keep by exact Hs.
  destruct (Ascii.eqb c dq) eqn:E; [apply Ascii.eqb_eq in E; contradiction|].
  destruct k; [reflexivity | rewrite sapp_cons; reflexivity].
Qed.

(** X2.  A pair whose value does not start with a double quote ends the parse: the
    pairs before it are kept, that key and everything after it are dropped. *)
Theorem parseStructTags_unquoted_stops (kvs : list (string * string)) (k : string) (c : ascii) (rest : string) :
  forallb (fun kv => keyOK kv.1) kvs = true -> keyOK k = true -> c <> dq -> c <> " "%char ->
  parseStructTags (String BQ ((renderPairs kvs ++ String " "%char (k ++ String ":"%char (String c rest))) ++ String BQ EmptyString)) =
  insertAll kvs ∅.
Proof.
  intros HF Hk Hq Hs. rewrite parseStructTags_eq, strip_wrapped.
  rewrite renderPairs_then; [| exact (forallb_keyOK kvs HF) |].
  - rewrite slength_app. cbn [String.length].
    replace (S (String.length (renderPairs kvs) + S (String.length (k ++ String ":"%char (String c rest)))) - length kvs)%nat
      with (S (S (String.length (renderPairs kvs) - length kvs + String.length (k ++ String ":"%char (String c rest)))))
      by (pose proof (renderPairs_length kvs); lia).
    apply tagLoop_unquoted; assumption.
  - rewrite slength_app; cbn [String.length]. pose proof (renderPairs_length kvs); lia.
Qed.

Lemma parseStructTags_unquoted_stops_witness :
  forallb (fun kv => keyOK kv.1) [("json", "a")] = true /\ keyOK "db" = true /\
  "x"%char <> dq /\ "x"%char <> " "%char /\
  parseStructTags (String BQ ((renderPairs [("json", "a")] ++ String " "%char ("db" ++ String ":"%char (String "x"%char (" yaml:" ++ DQ ++ "b" ++ DQ)))) ++ String BQ EmptyString)) =
  insertAll [("json", "a")] ∅.
Proof.
  split; [reflexivity|]. split; [reflexivity|]. split; [discriminate|]. split; [discriminate|].
  apply parseStructTags_unquoted_stops; [reflexivity | reflexivity | discriminate | discriminate].
Defined.

End StructTagsFacts.

Module StringFacts.

Import QuoteFacts StringSearch.

Lemma charIn_app (c : ascii) (a b : string) : charIn c (a ++ b) = charIn c a || charIn c b.
Proof. unfold charIn. rewrite list_ascii_app. apply existsb_app. Qed.

Lemma charIn_cons (c d : ascii) (r : string) : charIn c (String d r) = Ascii.eqb d c || charIn c r.
Proof. reflexivity. Qed.

Lemma prefix_one (c d : ascii) (r : string) : String.prefix (String c EmptyString) (String d r) = Ascii.eqb c d.
Proof.
  cbn. destruct (ascii_dec c d) as [->|Hn]; [rewrite Ascii.eqb_refl; destruct r; reflexivity|].
  symmetry; apply Ascii.eqb_neq; exact Hn.
Qed.

Lemma index_one (c : ascii) (s : string) :
  String.index 0 (String c EmptyString) s = IndexChar s c.
Proof.
  induction s as [|d r IH]; [reflexivity|].
  cbn [String.index IndexChar]. rewrite prefix_one, IH.
  rewrite (Ascii.eqb_sym c d). destruct (Ascii.eqb d c); [reflexivity|].
  destruct (IndexChar r c); reflexivity.
Qed.

Lemma IndexChar_none (c : ascii) (s : string) : IndexChar s c = None <-> charIn c s = false.
Proof.
  induction s as [|d r IH]; [split; reflexivity|].
  cbn [IndexChar]. rewrite charIn_cons. destruct (Ascii.eqb d c); cbn; [split; discriminate|].
  destruct (IndexChar r c); cbn; rewrite <- IH; split; congruence.
Qed.

Lemma Contains_one (c : ascii) (s : string) : Contains s (String c EmptyString) = charIn c s.
Proof.
  unfold Contains. rewrite index_one.
  destruct (IndexChar s c) eqn:E; [|symmetry; apply IndexChar_none; exact E].
  symmetry. destruct (charIn c s) eqn:F; [reflexivity|].
  apply IndexChar_none in F; congruence.
Qed.


Lemma IndexChar_app_miss (a t : string) (c : ascii) :
  charIn c a = false -> IndexChar (a ++ t) c = option_map (fun i => String.length a + i)%nat (IndexChar t c).
Proof.
  induction a as [|d a IH]; intros H.
  - rewrite sapp_nil_l. destruct (IndexChar t c); reflexivity.
  - rewrite sapp_cons; cbn [IndexChar]. rewrite charIn_cons in H. apply orb_false_iff in H as [H1 H2].
    rewrite H1, IH by exact H2. destruct (IndexChar t c); reflexivity.
Qed.

Lemma LastIndexChar_snoc (a : string) (c : ascii) :
  LastIndexChar (a ++ String c EmptyString) c = Some (String.length a).
Proof.
  induction a as [|d a IH]; [rewrite sapp_nil_l; cbn [LastIndexChar]; now rewrite Ascii.eqb_refl|]. rewrite sapp_cons; cbn [LastIndexChar]. rewrite IH; reflexivity.
Qed.

Lemma LastIndexChar_snoc_miss (a : string) (c e : ascii) :
  Ascii.eqb e c = false -> LastIndexChar (a ++ String e EmptyString) c = LastIndexChar a c.
Proof.
  intros H. induction a as [|d a IH]; [rewrite sapp_nil_l; cbn [LastIndexChar]; now rewrite H|].
  rewrite sapp_cons; cbn [LastIndexChar]. rewrite IH; reflexivity.
Qed.

Lemma substring_last (a : string) (c : ascii) :
  substring (String.length a) 1 (a ++ String c EmptyString) = String c EmptyString.
Proof. induction a as [|d a IH]; [reflexivity|]. exact IH. Qed.

Lemma HasSuffix_snoc (a : string) (c e : ascii) :
  HasSuffix (a ++ String c EmptyString) (String e EmptyString) = Ascii.eqb c e.
Proof.
  unfold HasSuffix. rewrite slength_app. cbn [String.length].
  replace (String.length a + 1 - 1)%nat with (String.length a) by lia.
  rewrite substring_last.
  replace (1 <=? String.length a + 1)%nat with true by (symmetry; apply Nat.leb_le; lia).
  cbn [andb]. destruct (ascii_dec c e) as [->|Hn].
  - now rewrite String.eqb_refl, Ascii.eqb_refl.
  - rewrite (proj2 (Ascii.eqb_neq c e) Hn). apply String.eqb_neq. congruence.
Qed.

Lemma TrimSuffix_snoc_hit (a : string) (c : ascii) :
  TrimSuffix (a ++ String c EmptyString) (String c EmptyString) = a.
Proof.
  unfold TrimSuffix. rewrite HasSuffix_snoc, Ascii.eqb_refl, slength_app. cbn [String.length].
  replace (String.length a + 1 - 1)%nat with (String.length a) by lia.
  apply substring_prefix.
Qed.

Lemma TrimSuffix_snoc_miss (a : string) (c e : ascii) :
  Ascii.eqb c e = false ->
  TrimSuffix (a ++ String c EmptyString) (String e EmptyString) = a ++ String c EmptyString.
Proof. intros H. unfold TrimSuffix. now rewrite HasSuffix_snoc, H. Qed.

Lemma snoc_view (s : string) : s <> EmptyString -> exists a c, s = a ++ String c EmptyString.
Proof.
  induction s as [|d r IH]; intros H; [congruence|].
  destruct r as [|d' r'].
  - exists EmptyString, d; reflexivity.
  - destruct IH as (a & c & E); [discriminate|]. exists (String d a), c. rewrite sapp_cons, <- E; reflexivity.
Qed.

Lemma HasPrefix_one (d c : ascii) (r : string) :
  HasPrefix (String d r) (String c EmptyString) = Ascii.eqb c d.
Proof. apply prefix_one. Qed.

Lemma HasPrefix_two_miss (d c : ascii) (r t : string) :
  Ascii.eqb c d = false -> HasPrefix (String d r) (String c t) = false.
Proof.
  intros H. unfold HasPrefix. cbn. destruct (ascii_dec c d) as [->|]; [now rewrite Ascii.eqb_refl in H | reflexivity].
Qed.

Lemma HasPrefix_app (p s : string) : HasPrefix (p ++ s) p = true.
Proof.
  unfold HasPrefix. induction p as [|c p IH]; [destruct s; reflexivity|].
  rewrite sapp_cons. cbn. destruct (ascii_dec c c); [exact IH | congruence].
Qed.

Lemma TrimPrefix_app (p s : string) : TrimPrefix (p ++ s) p = s.
Proof.
  unfold TrimPrefix. rewrite HasPrefix_app, slength_app.
  replace (String.length p + String.length s - String.length p)%nat with (String.length s) by lia.
  rewrite <- (Nat.add_0_r (String.length p)), substring_skip. apply substring_all.
Qed.







End StringFacts.

Module SchemaFacts.

Import QuoteFacts StringSearch StringFacts SchemaNames SchemaShapes.

Lemma nameOK_parts (a : string) :
  nameOK a = true ->
  a <> EmptyString /\ charIn "["%char a = false /\ charIn "]"%char a = false /\
  charIn ","%char a = false /\ charIn "!"%char a = false /\
  forallb (fun c => negb (isSpace c)) (list_ascii_of_string a) = true.
Proof.
  unfold nameOK, charIn. intros H. apply andb_prop in H as [H0 H].
  split; [intros ->; discriminate|].
  rewrite forallb_forall in H.
  repeat split.
  all: try (apply not_true_iff_false; rewrite existsb_exists; intros (x & Hx & E);
            specialize (H x Hx); apply Ascii.eqb_eq in E; subst x; discriminate).
  apply forallb_forall. intros x Hx. specialize (H x Hx). unfold nameChar in H.
  destruct (isSpace x); [discriminate | reflexivity].
Qed.






Lemma nameOK_TrimSuffix (a : string) : nameOK a = true -> TrimSuffix a "!" = a.
Proof.
  intros H. destruct (nameOK_parts a H) as (Hne & _ & _ & _ & Hb & _).
  destruct (snoc_view a Hne) as (a' & c & ->). apply TrimSuffix_snoc_miss.
  rewrite charIn_app, charIn_cons in Hb. apply orb_false_iff in Hb as [_ Hb].
  apply orb_false_iff in Hb as [Hb _]. exact Hb.
Qed.






Lemma extractAllTypeNamesF_S (f : nat) (s0 : string) :
  extractAllTypeNamesF (S f) s0 =
  (let schema := TrimSuffix (stripArrayBrackets s0) "!" in
   if Contains schema "[" && Contains schema "]" then
     match IndexChar schema "["%char, LastIndexChar schema "]"%char with
     | Some o, Some c =>
         if (0 <? o)%nat && (o <? c)%nat then
           TrimSpace (substring 0 o schema) ::
             flat_map (argNames f) (SplitChar (substring (S o) (c - S o) schema) ","%char)
         else [schema]
     | _, _ => [schema]
     end
   else [schema]).
Proof. reflexivity. Qed.




Lemma after_strip_plain (f : nat) (s0 : string) :
  charIn "["%char (TrimSuffix (stripArrayBrackets s0) "!") = false ->
  extractAllTypeNamesF (S f) s0 = [TrimSuffix (stripArrayBrackets s0) "!"].
Proof. intros H. rewrite extractAllTypeNamesF_S. cbv zeta. rewrite Contains_one, H. reflexivity. Qed.

Lemma after_strip_bracket (f : nat) (s0 t : string) :
  TrimSuffix (stripArrayBrackets s0) "!" = String "["%char t ->
  extractAllTypeNamesF (S f) s0 = [String "["%char t].
Proof.
  intros H. rewrite extractAllTypeNamesF_S. cbv zeta. rewrite H. cbn [IndexChar Ascii.eqb].
  destruct (Contains _ _ && Contains _ _); [|reflexivity].
  destruct (LastIndexChar _ _); reflexivity.
Qed.

Lemma HasPrefix_cons_same (c : ascii) (r p : string) :
  HasPrefix (String c r) (String c p) = HasPrefix r p.
Proof. unfold HasPrefix. cbn. destruct (ascii_dec c c); [reflexivity | congruence]. Qed.

Lemma HasPrefix_close_miss (a t : string) :
  nameOK a = true -> HasPrefix (String "["%char (a ++ t)) "[]" = false.
Proof.
  intros H. destruct (nameOK_parts a H) as (Hne & _ & Hr & _).
  rewrite HasPrefix_cons_same. destruct a as [|d r]; [congruence|].
  rewrite sapp_cons. rewrite charIn_cons in Hr. apply orb_false_iff in Hr as [Hd _].
  apply HasPrefix_two_miss. rewrite Ascii.eqb_sym; exact Hd.
Qed.

Lemma charIn_name_close (a : string) (c : ascii) (t : string) :
  nameOK a = true -> Ascii.eqb c ","%char = false -> charIn ","%char t = false ->
  Contains (String "["%char (a ++ String c t)) "," = false.
Proof.
  intros H Hc Ht. destruct (nameOK_parts a H) as (_ & _ & _ & Ha & _).
  rewrite Contains_one, charIn_cons, charIn_app, charIn_cons, Ha, Hc, Ht. reflexivity.
Qed.

(** X4.  Array schemas: [[T]] and [[T!]] give [T], while the non-null array
    [[T]!] keeps its brackets and gives the name [[T]]. *)
Theorem extractAllTypeNames_array (a : string) :
  nameOK a = true ->
  extractAllTypeNames ("[" ++ a ++ "]") = [a] /\
  extractAllTypeNames ("[" ++ a ++ "!]") = [a] /\
  extractAllTypeNames ("[" ++ a ++ "]!") = ["[" ++ a ++ "]"].
Proof.
  intros H. destruct (nameOK_parts a H) as (Hne & Hl & Hr & Hc & Hb & _).
  unfold extractAllTypeNames. rewrite !sapp_cons, !sapp_nil_l. cbn [String.length].
  repeat split.
  - assert (ES : stripArrayBrackets (String "["%char (a ++ "]")) = a).
    { unfold stripArrayBrackets. rewrite HasPrefix_close_miss by exact H.
      change (HasPrefix (String "["%char (a ++ "]")) "[") with (HasPrefix ("[" ++ (a ++ "]")) "[").
      rewrite HasPrefix_app, charIn_name_close by (exact H || reflexivity).
      change (String "["%char (a ++ "]")) with (("[" ++ a) ++ "]") at 1.
      rewrite LastIndexChar_snoc. cbn [andb negb].
      replace (String.length ("[" ++ a) =? String.length (String "["%char (a ++ "]")) - 1)%nat with true.
      2:{ symmetry. apply Nat.eqb_eq. rewrite !slength_app. cbn [String.length]. rewrite !slength_app. cbn [String.length]. lia. }
      change (String "["%char (a ++ "]")) with ("[" ++ (a ++ "]")). rewrite TrimPrefix_app.
      apply TrimSuffix_snoc_hit. }
    rewrite after_strip_plain; rewrite ES, nameOK_TrimSuffix by exact H; [reflexivity | exact Hl].
  - assert (ES : stripArrayBrackets (String "["%char (a ++ "!]")) = a ++ "!").
    { unfold stripArrayBrackets. rewrite HasPrefix_close_miss by exact H.
      change (HasPrefix (String "["%char (a ++ "!]")) "[") with (HasPrefix ("[" ++ (a ++ "!]")) "[").
      rewrite HasPrefix_app, charIn_name_close by (exact H || reflexivity).
      assert (EL : LastIndexChar (String "["%char (a ++ "!]")) "]"%char = Some (S (S (String.length a)))).
      { replace (String "["%char (a ++ "!]")) with (("[" ++ (a ++ "!")) ++ "]")
          by (rewrite <- !sapp_assoc; reflexivity).
        rewrite LastIndexChar_snoc, !slength_app. cbn [String.length]. f_equal. lia. }
      rewrite EL. cbn [andb negb].
      replace (S (S (String.length a)) =? String.length (String "["%char (a ++ "!]")) - 1)%nat with true.
      2:{ symmetry. apply Nat.eqb_eq. cbn [String.length]. rewrite !slength_app. cbn [String.length]. lia. }
      change (String "["%char (a ++ "!]")) with ("[" ++ (a ++ "!]")).
      rewrite TrimPrefix_app.
      change (a ++ "!]") with (a ++ ("!" ++ "]")). rewrite sapp_assoc. apply TrimSuffix_snoc_hit. }
    rewrite after_strip_plain; rewrite ES, TrimSuffix_snoc_hit; [reflexivity | exact Hl].
  - assert (ES : stripArrayBrackets (String "["%char (a ++ "]!")) = String "["%char (a ++ "]!")).
    { unfold stripArrayBrackets. rewrite HasPrefix_close_miss by exact H.
      change (HasPrefix (String "["%char (a ++ "]!")) "[") with (HasPrefix ("[" ++ (a ++ "]!")) "[").
      rewrite HasPrefix_app, charIn_name_close by (exact H || reflexivity).
      assert (EL : LastIndexChar (String "["%char (a ++ "]!")) "]"%char = Some (S (String.length a))).
      { replace (String "["%char (a ++ "]!")) with ((("[" ++ a) ++ "]") ++ "!")
          by (rewrite <- !sapp_assoc; reflexivity).
        rewrite LastIndexChar_snoc_miss by reflexivity. rewrite LastIndexChar_snoc, !slength_app.
        cbn [String.length]. f_equal. }
      rewrite EL. cbn [andb negb].
      replace (S (String.length a) =? String.length (String "["%char (a ++ "]!")) - 1)%nat with false.
      2:{ symmetry. apply Nat.eqb_neq. cbn [String.length]. rewrite !slength_app. cbn [String.length]. lia. }
      reflexivity. }
    apply after_strip_bracket. rewrite ES.
    replace (String "["%char (a ++ "]!")) with ((String "["%char (a ++ "]")) ++ "!")
      by (rewrite sapp_cons, <- sapp_assoc; reflexivity).
    apply TrimSuffix_snoc_hit.
Qed.

(** X5.  A schema that starts with one bracket and contains a comma is not
    unwrapped: it is returned whole, only a final bang removed. *)
Theorem extractAllTypeNames_bracket_comma (s : string) :
  HasPrefix s "[" = true -> HasPrefix s "[]" = false -> Contains s "," = true ->
  extractAllTypeNames s = [TrimSuffix s "!"].
Proof.
  intros H1 H2 H3. unfold extractAllTypeNames.
  assert (ES : stripArrayBrackets s = s).
  { unfold stripArrayBrackets. now rewrite H1, H2, H3. }
  destruct s as [|c r]; [discriminate|].
  rewrite HasPrefix_one in H1. apply Ascii.eqb_eq in H1; subst c.
  rewrite Contains_one, charIn_cons in H3. cbn [Ascii.eqb orb] in H3.
  destruct r as [|d r']; [discriminate|].
  assert (ET : exists t, TrimSuffix (String "["%char (String d r')) "!" = String "["%char t).
  { unfold TrimSuffix. destruct (HasSuffix _ _); [|eexists; reflexivity].
    cbn [String.length]. replace (S (S (String.length r')) - 1)%nat with (S (String.length r')) by lia.
    eexists; reflexivity. }
  destruct ET as [t Et].
  rewrite (after_strip_bracket _ _ t); [|rewrite ES; exact Et]. rewrite Et. reflexivity.
Qed.


Lemma extractAllTypeNames_array_witness :
  nameOK "User" = true /\
  extractAllTypeNames "[User]" = ["User"] /\ extractAllTypeNames "[User!]" = ["User"] /\
  extractAllTypeNames "[User]!" = ["[User]"].
Proof. split; [reflexivity|]. exact (extractAllTypeNames_array "User" eq_refl). Defined.

Lemma extractAllTypeNames_bracket_comma_witness :
  HasPrefix "[Result[User, Error]!]" "[" = true /\ HasPrefix "[Result[User, Error]!]" "[]" = false /\
  Contains "[Result[User, Error]!]" "," = true /\
  extractAllTypeNames "[Result[User, Error]!]" = ["[Result[User, Error]!]"].
Proof.
  split; [reflexivity|]. split; [reflexivity|]. split; [reflexivity|].
  exact (extractAllTypeNames_bracket_comma "[Result[User, Error]!]" eq_refl eq_refl eq_refl).
Defined.

End SchemaFacts.

Module IotaFacts.

Import Types Registry Props QuoteFacts StringSearch StringFacts ConstFacts DeclShapes.







End IotaFacts.

Module IotaBlockFacts.
Import Types Registry Props QuoteFacts StringSearch StringFacts ConstFacts IotaFacts DeclShapes.



End IotaBlockFacts.

Module PointerSpecFacts.

Import Annotations Types Registry Props QuoteFacts DeclShapes.

Lemma sapp_inj_l (a x y : string) : a ++ x = a ++ y -> x = y.
Proof. induction a as [|c a IH]; [auto|]. rewrite !sapp_cons. intros H; injection H; exact IH. Qed.

Lemma qualify_inj (pkg : Package) (x y : string) : qualify pkg x = qualify pkg y -> x = y.
Proof. unfold qualify. intros H. apply sapp_inj_l in H. apply sapp_inj_l in H. exact H. Qed.








End PointerSpecFacts.

Module DetectFacts.

Import Types Registry Props DeclShapes.

Lemma detectHeap_cons (T : gmap string ptr) (kv : string * list EnumValue) l h :
  detectHeap T (kv :: l) h =
  detectHeap T l (match T !! kv.1 with Some p => alter (markEnum kv.2) p h | None => h end).
Proof. reflexivity. Qed.


Lemma alter_is_Some (f : TypeInfo -> TypeInfo) (p q : ptr) (h : gmap ptr TypeInfo) :
  is_Some (h !! q) -> is_Some (alter f p h !! q).
Proof.
  intros [t Ht]. destruct (decide (p = q)) as [->|Hne].
  - rewrite lookup_alter_eq, Ht. eexists; reflexivity.
  - rewrite lookup_alter_ne by exact Hne. rewrite Ht. eexists; reflexivity.
Qed.

Lemma detectHeap_is_Some (T : gmap string ptr) (l : list (string * list EnumValue)) (h : gmap ptr TypeInfo) (q : ptr) :
  is_Some (h !! q) -> is_Some (detectHeap T l h !! q).
Proof.
  revert h; induction l as [|kv l IH]; intros h H; [exact H|].
  rewrite detectHeap_cons. apply IH. destruct (T !! kv.1); [apply alter_is_Some, H | exact H].
Qed.







End DetectFacts.

Module NamespaceFacts.

Import Annotations AnnotationsFacts QuoteFacts StringSearch StringFacts Namespaces.







Lemma ToLower_namespace : ToLower "namespace" = "namespace".
Proof. reflexivity. Qed.







End NamespaceFacts.

(* ------------------------------------------------------------------ *)
(** ** Include-type classification *)

Module IncludeTypeFacts.

Import Types QuoteFacts StringSearch StringFacts IncludeTypes.

Lemma LastIndexChar_app (a b : string) (c : ascii) :
  LastIndexChar (a ++ b) c =
  match LastIndexChar b c with
  | Some i => Some (String.length a + i)%nat
  | None => LastIndexChar a c
  end.
Proof.
  induction a as [|x a IH].
  - rewrite sapp_nil_l. destruct (LastIndexChar b c); reflexivity.
  - rewrite sapp_cons. cbn [LastIndexChar]. rewrite IH. destruct (LastIndexChar b c); reflexivity.
Qed.

Lemma cleanLoop_copy (rooted : bool) (dd : nat) (ds rest rout : list ascii) :
  forallb (fun ch => negb (IsPathSeparator ch)) ds = true ->
  cleanLoop rooted true dd rout (app ds rest) = cleanLoop rooted true dd (app (rev ds) rout) rest.
Proof.
  revert rout; induction ds as [|x ds IH]; intros rout H; [reflexivity|].
  cbn in H. apply andb_prop in H as [Hx H].
  cbn [app cleanLoop andb]. rewrite Hx. rewrite IH by exact H.
  cbn [rev]. now rewrite <- app_assoc.
Qed.

Lemma charIn_forall (c : ascii) (s : string) :
  charIn c s = false -> forallb (fun ch => negb (Ascii.eqb ch c)) (list_ascii_of_string s) = true.
Proof.
  unfold charIn. induction (list_ascii_of_string s) as [|x l IH]; [reflexivity|].
  cbn. destruct (Ascii.eqb x c); [discriminate|]. exact IH.
Qed.

Lemma cleanLoop_word (rooted : bool) (dd : nat) (rout rest : list ascii) (c : ascii) :
  IsPathSeparator c = false -> Ascii.eqb c "." = false ->
  cleanLoop rooted false dd rout (c :: rest) =
  cleanLoop rooted true dd
    (c :: (if (rooted && negb (length rout =? 1)%nat) || (negb rooted && negb (length rout =? 0)%nat)
           then "/"%char :: rout else rout)) rest.
Proof. intros H1 H2. destruct rest as [|d r]; cbn [cleanLoop andb negb]; rewrite H1, H2; reflexivity. Qed.

Lemma cleanLoop_nonempty_match (c : ascii) (r : list ascii) :
  match app r [c] with [] => ["."%char] | _ :: _ => app r [c] end = app r [c].
Proof. destruct r; reflexivity. Qed.

(** [filepath.Clean] keeps a single relative path element. *)
Lemma Clean_dot_elem (d : string) :
  d <> "" -> charIn "/" d = false -> HasPrefix d "." = false ->
  Clean ("./" ++ d ++ "/") = d.
Proof.
  intros Hne Hsl Hdot. destruct d as [|c0 ds]; [congruence|].
  pose proof (charIn_forall _ _ Hsl) as Hall. cbn in Hall.
  apply andb_prop in Hall as [Hc0 Hall].
  rewrite HasPrefix_one in Hdot.
  assert (HL : list_ascii_of_string ("./" ++ String c0 ds ++ "/")
                = "."%char :: "/"%char :: c0 :: app (list_ascii_of_string ds) ["/"%char]).
  { rewrite !list_ascii_app. reflexivity. }
  assert (Hc0' : IsPathSeparator c0 = false) by (unfold IsPathSeparator; now destruct (Ascii.eqb c0 "/")).
  assert (Hd0 : Ascii.eqb c0 "." = false) by (rewrite Ascii.eqb_sym; exact Hdot).
  assert (Hloop : cleanLoop false false 0 [] ("."%char :: "/"%char :: c0 :: app (list_ascii_of_string ds) ["/"%char])
                  = app (rev (list_ascii_of_string ds)) [c0]).
  { change (cleanLoop false false 0 [] (c0 :: app (list_ascii_of_string ds) ["/"%char])
            = app (rev (list_ascii_of_string ds)) [c0]).
    rewrite cleanLoop_word by assumption. cbn [length Nat.eqb negb andb orb].
    rewrite cleanLoop_copy by exact Hall. reflexivity. }
  unfold Clean. rewrite HL. change (IsPathSeparator ".") with false. cbn beta iota zeta.
  rewrite Hloop, cleanLoop_nonempty_match, rev_app_distr, rev_involutive. cbn [rev app].
  change (String c0 (string_of_list_ascii (list_ascii_of_string ds)) = String c0 ds).
  now rewrite string_of_list_ascii_of_string.
Qed.

Lemma HasSuffix_app (a b : string) : HasSuffix (a ++ b) b = true.
Proof.
  unfold HasSuffix. rewrite slength_app.
  replace (String.length a + String.length b - String.length b)%nat with (String.length a + 0)%nat by lia.
  rewrite substring_skip, substring_all, String.eqb_refl, andb_true_r.
  apply Nat.leb_le. lia.
Qed.

Lemma LastIndexChar_sep_end (a : string) : LastIndexChar (a ++ "/") "/" = Some (String.length a).
Proof. rewrite LastIndexChar_app. cbn. f_equal. lia. Qed.

(** [filepath.Dir] of a [./d/*.go] pattern. *)
Lemma Dir_pattern (d : string) :
  charIn "/" d = false -> Dir ("./" ++ d ++ "/*.go") = Clean ("./" ++ d ++ "/").
Proof.
  intros Hsl. unfold Dir.
  replace ("./" ++ d ++ "/*.go") with ((("./" ++ d) ++ "/") ++ "*.go")
    by (rewrite <- !sapp_assoc; reflexivity).
  rewrite (sapp_assoc "./" d "/"), LastIndexChar_app.
  replace (LastIndexChar "*.go" "/") with (@None nat) by reflexivity.
  rewrite LastIndexChar_sep_end.
  replace (S (String.length ("./" ++ d))) with (String.length (("./" ++ d) ++ "/"))
    by (rewrite slength_app; cbn; lia).
  now rewrite substring_prefix.
Qed.


(** X11 (isInScannedPackages, classifyIncludeType): with a file pattern
    [./d/*.go] among the scanned packages, where [d] is a single path
    element, every package path that ends in [d] is classified as scanned,
    whatever precedes [d] and whatever the module path: the match is a plain
    string suffix test, with no path-element boundary. *)
Theorem scan_dir_pattern_suffix (d pre modulePath : string) (pats : list string) :
  d <> "" -> charIn "/" d = false -> HasPrefix d "." = false ->
  In ("./" ++ d ++ "/*.go") pats ->
  classifyIncludeType (pre ++ d)
    (Some (mkProcessContext (Some (mkConfig (mkScanningConfig pats))) modulePath)) = IncludeTypeScanned.
Proof.
  intros Hne Hsl Hdot Hin.
  assert (Hne' : String.eqb (pre ++ d) "" = false).
  { apply String.eqb_neq. intros E. apply (f_equal String.length) in E.
    rewrite slength_app in E. destruct d; [congruence | cbn in E; lia]. }
  assert (Hs : isInScannedPackages (pre ++ d) pats = true).
  { unfold isInScannedPackages. rewrite Hne'. apply existsb_exists.
    exists ("./" ++ d ++ "/*.go"). split; [exact Hin|].
    unfold scanPatternMatches.
    replace ("./" ++ d ++ "/*.go") with (("./" ++ d ++ "/") ++ "*.go") at 1
      by (rewrite <- !sapp_assoc; reflexivity).
    rewrite HasSuffix_app, Dir_pattern, Clean_dot_elem by assumption.
    destruct d as [|c0 ds]; [congruence|].
    rewrite HasPrefix_one in Hdot.
    pose proof (charIn_forall _ _ Hsl) as Hall. cbn in Hall. apply andb_prop in Hall as [Hc0 _].
    assert (Htp1 : TrimPrefix (String c0 ds) "./" = String c0 ds).
    { unfold TrimPrefix. now rewrite (HasPrefix_two_miss c0 "." ds "/") by exact Hdot. }
    assert (Htp2 : TrimPrefix (String c0 ds) "/" = String c0 ds).
    { unfold TrimPrefix. rewrite HasPrefix_one.
      replace (Ascii.eqb "/" c0) with false
        by (rewrite Ascii.eqb_sym; now destruct (Ascii.eqb c0 "/")).
      reflexivity. }
    rewrite Htp1, Htp2. now rewrite HasSuffix_app, orb_true_r. }
  unfold classifyIncludeType. cbn [PCConfig Scanning Packages ModulePath].
  now rewrite Hne', Hs.
Qed.

Lemma scan_dir_pattern_suffix_witness :
  ("models" <> "" /\ charIn "/" "models" = false /\ HasPrefix "models" "." = false /\
   In ("./" ++ "models" ++ "/*.go") ["./models/*.go"]) /\
  classifyIncludeType ("example.com/app/user" ++ "models")
    (Some (mkProcessContext (Some (mkConfig (mkScanningConfig ["./models/*.go"]))) "example.com/app"))
  = IncludeTypeScanned.
Proof.
  split; [split; [discriminate | split; [reflexivity | split; [reflexivity | now left]]]|].
  apply scan_dir_pattern_suffix; [discriminate | reflexivity | reflexivity | now left].
Defined.



End IncludeTypeFacts.
